(** * pyeclib/core.py: the erasure-coding drivers

    A shallow embedding of [src/python/pyeclib/core.py] and the properties
    of its three drivers: [ECPyECLibDriver] (the driver that wraps the
    native engine [pyeclib_c]), [ECNullDriver] and [ECStripingDriver].

    Conventions of the embedding.
    - Python integers are [Z].  A buffer (the [bytes] argument, a fragment
      payload) is a [list byte]; the empty literal [''] is [[]] and [+] on
      buffers is [++].
    - An operation that can raise returns a [Result]; the exceptions that
      the module can meet are the constructors of [Exn].
    - [math.ceil(len(bytes) / float(k))] is the exact ceiling of the
      quotient, returned as an integer.  The floating-point quotient and
      the exact one have the same ceiling for every length below 2^53.
      [float(k)] is defined for [-2^1024 < k < 2^1024] and raises
      [OverflowError] beyond: the embedding of [encode] speaks of the
      [k] of that range.
    - The native engine [pyeclib_c] is not part of the module: it is a
      parameter ([Engine]), with a state of its own behind the opaque
      handle.  Every call made to it is recorded in the order it is issued.
    - [indexes_to_reconstruct] is a list object shared with the caller and
      sorted in place; list objects of integers live in a store and are
      passed by reference. *)

From Stdlib Require Import ZArith String List Ascii.
From Stdlib.Strings Require Import Byte.
From stdpp Require Import base numbers list sorting.

Open Scope Z_scope.
Open Scope list_scope.

(** ** Python primitives *)

Definition buffer : Type := list byte.

(** A byte-string literal. *)
Definition b (s : string) : buffer := list_byte_of_string s.

Inductive Exn : Type :=
| NameError (name : string)          (* unbound global name *)
| IndexError                         (* list index out of range *)
| ZeroDivisionError                  (* float division by zero *)
| EngineFault (what : string)        (* an exception raised inside pyeclib_c *)
| ECDriverError (msg : string).      (* the error class the module refers to *)

Inductive Result (A : Type) : Type :=
| Ok (a : A)
| Raise (e : Exn).
Arguments Ok {A} a.
Arguments Raise {A} e.

(** [len(x)] *)
Definition len {A} (l : list A) : Z := Z.of_nat (length l).

(** The bound of a slice, as [PySlice_AdjustIndices] computes it for a
    sequence of length [n] and step 1: a negative bound counts from the
    end, and both bounds are clamped to [0..n]. *)
Definition slice_index (n i : Z) : Z :=
  if i <? 0 then Z.max (i + n) 0 else Z.min i n.

(** [s[start:stop]] *)
Definition py_slice {A} (s : list A) (start stop : Z) : list A :=
  let lo := slice_index (len s) start in
  let hi := slice_index (len s) stop in
  take (Z.to_nat (hi - lo)) (drop (Z.to_nat lo) s).

(** [math.ceil(n / float(k))], for [k <> 0]. *)
Definition ceil_div (n k : Z) : Z := - ((- n) / k).

(** [x in xs], for strings. *)
Definition str_in (x : string) (xs : list string) : bool :=
  existsb (String.eqb x) xs.

(** ** Name resolution in the module

    A global name is looked up in the module's namespace and then in the
    builtins.  The module binds its two imports and its three classes. *)

Definition module_globals : list string :=
  ["pyeclib_c"; "math"; "ECPyECLibDriver"; "ECNullDriver";
   "ECStripingDriver"]%string.

(** The builtins the module refers to, and the exception classes of [Exn]. *)
Definition builtins : list string :=
  ["object"; "len"; "float"; "range"; "Exception"; "NameError";
   "IndexError"; "ZeroDivisionError"; "TypeError"]%string.

Definition resolves (name : string) : bool :=
  str_in name module_globals || str_in name builtins.

(** [raise ECDriverError(msg)].  The callee is evaluated first: when the
    name is unbound the statement raises [NameError] and [msg] is never
    built. *)
Definition raise_ECDriverError {A} (msg : string) : Result A :=
  if resolves "ECDriverError" then Raise (ECDriverError msg)
  else Raise (NameError "ECDriverError").

(** ** ECStripingDriver *)

Module ECStripingDriver.

Record t : Type := { k : Z; m : Z }.

(** [__init__(self, k, m)] *)
Definition init (k m : Z) : Result t :=
  if negb (m =? 0) then
    raise_ECDriverError "This driver only supports m=0"
  else Ok {| k := k; m := m |}.

(** The body of [for i in range(self.k-1)], run [n] times on the
    variables [fragments] and [offset]. *)
Fixpoint encode_loop (n : nat) (bytes : buffer) (fragment_size : Z)
    (fragments : list buffer) (offset : Z) : list buffer * Z :=
  match n with
  | O => (fragments, offset)
  | S n' =>
      encode_loop n' bytes fragment_size
        (fragments ++ [py_slice bytes offset fragment_size])
        (offset + fragment_size)
  end.

(** [encode(self, bytes)] *)
Definition encode (self : t) (bytes : buffer) : Result (list buffer) :=
  if k self =? 0 then Raise ZeroDivisionError
  else
    let fragment_size := ceil_div (len bytes) (k self) in
    let last_fragment_size := len bytes - (fragment_size * k self - 1) in
    let '(fragments, offset) :=
      encode_loop (Z.to_nat (k self - 1)) bytes fragment_size [] 0 in
    Ok (fragments ++ [py_slice bytes offset last_fragment_size]).

(** [decode(self, fragment_payloads)] *)
Definition decode (self : t) (fragment_payloads : list buffer)
    : Result buffer :=
  if negb (len fragment_payloads =? k self) then
    raise_ECDriverError
      "Decode requires %d fragments, %d fragments were given"
  else
    Ok (fold_left (fun ret_string fragment => ret_string ++ fragment)
          fragment_payloads []).

(** [reconstruct(self, available_fragment_payloads,
    missing_fragment_indexes)] *)
Definition reconstruct (self : t)
    (available_fragment_payloads : list buffer)
    (missing_fragment_indexes : list Z) : Result (list buffer) :=
  if negb (len available_fragment_payloads =? k self) then
    raise_ECDriverError
      "Reconstruction requires %d fragments, %d fragments were given"
  else Ok available_fragment_payloads.

(** [fragments_needed(self, missing_fragment_indexes)] *)
Definition fragments_needed (self : t) (missing_fragment_indexes : list Z)
    : list Z :=
  missing_fragment_indexes.

(** [get_metadata(self, fragment)] *)
Definition get_metadata (self : t) (fragment : buffer) : buffer := [].

(** [verify_stripe_metadata(self, fragment_metadata_list)] *)
Definition verify_stripe_metadata (self : t)
    (fragment_metadata_list : list buffer) : bool := true.

End ECStripingDriver.

(** ** ECNullDriver: every method body is [pass] *)

Module ECNullDriver.

Record t : Type := { k : Z; m : Z }.

Definition init (k m : Z) : Result t := Ok {| k := k; m := m |}.
Definition encode (self : t) (bytes : buffer) : Result unit := Ok tt.
Definition decode (self : t) (fragment_payloads : list buffer)
    : Result unit := Ok tt.
Definition reconstruct (self : t)
    (available_fragment_payloads : list buffer)
    (missing_fragment_indexes : list Z) : Result unit := Ok tt.
Definition fragments_needed (self : t) (missing_fragment_indexes : list Z)
    : Result unit := Ok tt.

End ECNullDriver.

(** ** ECPyECLibDriver *)

Module ECPyECLibDriver.

Definition ec_rs_vand : string := "rs_vand".
Definition ec_rs_cauchy_orig : string := "rs_cauchy_orig".
Definition ec_flat_xor_3 : string := "flat_xor_3".
Definition ec_flat_xor_4 : string := "flat_xor_4".
Definition ec_types : list string :=
  [ec_rs_vand; ec_rs_cauchy_orig; ec_flat_xor_3; ec_flat_xor_4].
(** Assigned in [__init__] and read nowhere in the module. *)
Definition ec_valid_xor_params : list string := ["12_6_4"; "10_5_3"]%string.
Definition ec_rs_vand_best_w : Z := 16.
Definition ec_default_w : Z := 32.
Definition ec_rs_cauchy_best_w : Z := 4.

(** A reference to a list object of integers in the store. *)
Abbreviation ref := nat (only parsing).

Section Engine.
(** [St] is the state of the native engine, [Handle] what [init] hands
    back. *)
Context {St Handle : Type}.

(** The calls into [pyeclib_c], with their arguments. *)
Inductive Call : Type :=
| c_init (k m w : Z) (type : string)
| c_encode (handle : Handle) (bytes : buffer)
| c_fragments_to_string (handle : Handle) (fragments : list buffer)
| c_get_fragment_partition (handle : Handle) (fragments : list buffer)
| c_decode (handle : Handle) (data_frags parity_frags : list buffer)
    (missing_idxs : list Z) (frag_len : Z)
| c_reconstruct (handle : Handle) (data_frags parity_frags : list buffer)
    (missing_idxs : list Z) (index : Z) (frag_len : Z)
| c_get_required_fragments (missing_idxs : list Z).

(** What a call into the engine answers: [inl what] when the engine
    raises, [inr v] when it returns [v]; and the engine's next state. *)
Definition Answer (A : Type) : Type := (string + A) * St.

(** The native module [pyeclib_c].  The engine receives its arguments
    by value: it does not write to the caller's list objects. *)
Record Engine : Type := {
  pyeclib_c_init : Z -> Z -> Z -> string -> St -> Answer Handle;
  pyeclib_c_encode : Handle -> buffer -> St -> Answer (list buffer);
  pyeclib_c_fragments_to_string :
    Handle -> list buffer -> St -> Answer (option buffer);
  pyeclib_c_get_fragment_partition :
    Handle -> list buffer -> St ->
    Answer (list buffer * list buffer * list Z);
  pyeclib_c_decode :
    Handle -> list buffer -> list buffer -> list Z -> Z -> St ->
    Answer (list buffer);
  pyeclib_c_reconstruct :
    Handle -> list buffer -> list buffer -> list Z -> Z -> Z -> St ->
    Answer buffer;
  pyeclib_c_get_required_fragments : list Z -> St -> Answer (list Z)
}.

(** The world a driver method runs in: the engine's state, the calls
    issued so far (oldest first), and the store of list objects. *)
Record World : Type := {
  eng : St;
  calls : list Call;
  store : list (list Z)
}.

Definition M (A : Type) : Type := World -> Result A * World.

Definition ret {A} (a : A) : M A := fun w => (Ok a, w).

Definition bind {A B} (c : M A) (f : A -> M B) : M B :=
  fun w =>
    match c w with
    | (Ok a, w') => f a w'
    | (Raise e, w') => (Raise e, w')
    end.

Definition lift {A} (r : Result A) : M A := fun w => (r, w).

(** [try: body / except: handler] with a bare [except]. *)
Definition try_except {A} (body handler : M A) : M A :=
  fun w =>
    match body w with
    | (Ok a, w') => (Ok a, w')
    | (Raise _, w') => handler w'
    end.

(** One call into the engine: recorded, then answered. *)
Definition call {A} (c : Call) (f : St -> Answer A) : M A :=
  fun w =>
    let '(a, s') := f (eng w) in
    (match a with inl what => Raise (EngineFault what) | inr v => Ok v end,
     {| eng := s'; calls := calls w ++ [c]; store := store w |}).

(** [l.sort()] on the list object at [r]. *)
Definition list_sort (r : ref) : M unit :=
  fun w =>
    (Ok tt,
     {| eng := eng w; calls := calls w;
        store := alter (merge_sort Z.le) r (store w) |}).

(** [l[:]]: a fresh copy of the list object at [r]. *)
Definition list_copy (r : ref) : M (list Z) :=
  fun w => (Ok (default [] (store w !! r)), w).

(** [l[0]] *)
Definition item0 {A} (l : list A) : M A :=
  match l with
  | [] => lift (Raise IndexError)
  | x :: _ => ret x
  end.

End Engine.

Arguments Call : clear implicits.
Arguments Engine : clear implicits.
Arguments World : clear implicits.
Arguments M : clear implicits.

Notation "x <- c ;; k" := (bind c (fun x => k))
  (at level 100, c at next level, right associativity).
Notation "c ;;; k" := (bind c (fun _ => k))
  (at level 100, right associativity).

(** The attributes [__init__] assigns.  [hd] is [None] when no branch
    assigned it. *)
Record t {Handle : Type} : Type := {
  k : Z;
  m : Z;
  type : string;
  w : Z;
  hd : option Z;
  handle : Handle
}.
Arguments t : clear implicits.

Section Driver.
Context {St Handle : Type} (E : Engine St Handle).

(** The chain [if self.type == ... elif ... else] of [__init__]:
    the values given to [self.w] and [self.hd]. *)
Definition w_hd (m : Z) (type : string) : Z * option Z :=
  if String.eqb type ec_rs_vand then (ec_rs_vand_best_w, Some (m + 1))
  else if String.eqb type ec_rs_cauchy_orig then
    (ec_rs_cauchy_best_w, Some (m + 1))
  else if String.eqb type ec_flat_xor_3 then (ec_default_w, Some 3)
  else if String.eqb type ec_flat_xor_4 then (ec_default_w, Some 4)
  else (ec_default_w, None).

(** [__init__(self, k, m, type)] *)
Definition init (k m : Z) (type : string) : M St Handle (t Handle) :=
  if str_in type ec_types then
    let '(w, hd) := w_hd m type in
    handle <- call (c_init k m w type) (pyeclib_c_init E k m w type) ;;
    ret {| k := k; m := m; type := type; w := w; hd := hd;
           handle := handle |}
  else
    lift (raise_ECDriverError "%s is not a valid EC type for PyECLib!").

(** [encode(self, bytes)] *)
Definition encode (self : t Handle) (bytes : buffer)
    : M St Handle (list buffer) :=
  call (c_encode (handle self) bytes)
    (pyeclib_c_encode E (handle self) bytes).

(** [decode(self, fragment_payloads)].  The result is [None] when the
    last [fragments_to_string] returns [None]. *)
Definition decode (self : t Handle) (fragment_payloads : list buffer)
    : M St Handle (option buffer) :=
  ret_string <-
    try_except
      (call (c_fragments_to_string (handle self) fragment_payloads)
         (pyeclib_c_fragments_to_string E (handle self)
            fragment_payloads))
      (lift (raise_ECDriverError "Error in ECPyECLibDriver.decode")) ;;
  match ret_string with
  | None =>
      partition <-
        call (c_get_fragment_partition (handle self) fragment_payloads)
          (pyeclib_c_get_fragment_partition E (handle self)
             fragment_payloads) ;;
      let '(data_frags, parity_frags, missing_idxs) := partition in
      first <- item0 data_frags ;;
      decoded_fragments <-
        call (c_decode (handle self) data_frags parity_frags
                missing_idxs (len first))
          (pyeclib_c_decode E (handle self) data_frags parity_frags
             missing_idxs (len first)) ;;
      call (c_fragments_to_string (handle self) decoded_fragments)
        (pyeclib_c_fragments_to_string E (handle self)
           decoded_fragments)
  | Some _ => ret ret_string
  end.

(** The [while len(_indexes_to_reconstruct) > 0] loop of
    [reconstruct], on its two local lists. *)
Fixpoint reconstruct_loop (self : t Handle)
    (fragment_payloads : list buffer)
    (_indexes_to_reconstruct : list Z)
    (reconstructed_bytes : list buffer) : M St Handle (list buffer) :=
  match _indexes_to_reconstruct with
  | [] => ret reconstructed_bytes
  | index :: _indexes_to_reconstruct =>
      partition <-
        call (c_get_fragment_partition (handle self) fragment_payloads)
          (pyeclib_c_get_fragment_partition E (handle self)
             fragment_payloads) ;;
      let '(data_frags, parity_frags, missing_idxs) := partition in
      first <- item0 data_frags ;;
      reconstructed <-
        call (c_reconstruct (handle self) data_frags parity_frags
                missing_idxs index (len first))
          (pyeclib_c_reconstruct E (handle self) data_frags parity_frags
             missing_idxs index (len first)) ;;
      reconstruct_loop self fragment_payloads _indexes_to_reconstruct
        (reconstructed_bytes ++ [reconstructed])
  end.

(** [reconstruct(self, fragment_payloads, indexes_to_reconstruct)];
    [indexes_to_reconstruct] is the caller's list object. *)
Definition reconstruct (self : t Handle)
    (fragment_payloads : list buffer) (indexes_to_reconstruct : ref)
    : M St Handle (list buffer) :=
  list_sort indexes_to_reconstruct ;;;
  _indexes_to_reconstruct <- list_copy indexes_to_reconstruct ;;
  reconstruct_loop self fragment_payloads _indexes_to_reconstruct [].

(** [fragments_needed(self, missing_fragment_indexes)] *)
Definition fragments_needed (self : t Handle)
    (missing_fragment_indexes : list Z) : M St Handle (list Z) :=
  call (c_get_required_fragments missing_fragment_indexes)
    (pyeclib_c_get_required_fragments E missing_fragment_indexes).

(** [get_metadata] and [verify_stripe_metadata]: [pass]. *)
Definition get_metadata (self : t Handle) (fragment : buffer)
    : M St Handle unit :=
  ret tt.
Definition verify_stripe_metadata (self : t Handle)
    (fragment_metadata_list : list buffer) : M St Handle unit :=
  ret tt.

End Driver.

End ECPyECLibDriver.

(** ** A small engine to run the driver on

    [stub_engine data fts ok] answers every call without any coding
    mathematics: [fragments_to_string] answers [fts];
    [get_fragment_partition] classifies every supplied fragment as parity
    and answers [data] as the data fragments; [decode] and [reconstruct]
    succeed when [ok] holds and raise otherwise.  Its state counts the
    calls it has answered. *)

Definition stub_engine (data : list buffer) (fts : string + option buffer)
    (ok : bool) : ECPyECLibDriver.Engine nat Z :=
  {| ECPyECLibDriver.pyeclib_c_init := fun k m w type s => (inr 7, S s);
     ECPyECLibDriver.pyeclib_c_encode := fun h bytes s => (inr [bytes], S s);
     ECPyECLibDriver.pyeclib_c_fragments_to_string :=
       fun h frags s => (fts, S s);
     ECPyECLibDriver.pyeclib_c_get_fragment_partition :=
       fun h frags s => (inr (data, frags, []), S s);
     ECPyECLibDriver.pyeclib_c_decode :=
       fun h d p mi n s =>
         (if ok then inr (d ++ p) else inl "decode failed"%string, S s);
     ECPyECLibDriver.pyeclib_c_reconstruct :=
       fun h d p mi index n s =>
         (if ok then inr (concat d) else inl "reconstruct failed"%string,
          S s);
     ECPyECLibDriver.pyeclib_c_get_required_fragments :=
       fun mi s => (inr mi, S s) |}.

(** The world before any call, with the given list objects. *)
Definition fresh_world (store : list (list Z)) : ECPyECLibDriver.World nat Z :=
  {| ECPyECLibDriver.eng := O; ECPyECLibDriver.calls := [];
     ECPyECLibDriver.store := store |}.

(** The driver object that [__init__(2, 1, "rs_vand")] builds over the
    stub engine. *)
Definition stub_driver : ECPyECLibDriver.t Z :=
  {| ECPyECLibDriver.k := 2; ECPyECLibDriver.m := 1;
     ECPyECLibDriver.type := "rs_vand"; ECPyECLibDriver.w := 16;
     ECPyECLibDriver.hd := Some 2; ECPyECLibDriver.handle := 7 |}.

(** The sum of the lengths of a list of fragments. *)
Definition total_len (fragments : list buffer) : Z :=
  fold_right Z.add 0 (map len fragments).

(** ** Reading the record of calls *)

Section Schedule.
Import ECPyECLibDriver.
Context {St Handle : Type} (E : Engine St Handle).

(** The kind of a call: a fragment-partition call, a single-target
    reconstruct call for an index, or another call. *)
Inductive Shape : Type :=
| s_partition
| s_reconstruct (index : Z)
| s_other.

Definition shape (c : Call Handle) : Shape :=
  match c with
  | c_get_fragment_partition _ _ => s_partition
  | c_reconstruct _ _ _ _ index _ => s_reconstruct index
  | _ => s_other
  end.

(** One partition call followed by one reconstruct call per index, in
    the order of the list. *)
Definition schedule (indexes : list Z) : list Shape :=
  flat_map (fun index => [s_partition; s_reconstruct index]) indexes.

(** The indexes of the reconstruct calls of a record, in the order the
    calls were issued. *)
Definition reconstructed_indexes (cs : list (Call Handle)) : list Z :=
  flat_map (fun c => match shape c with
                     | s_reconstruct index => [index]
                     | _ => []
                     end) cs.

(** [c1; c2] is the work for one target: the partition of
    [fragment_payloads], then the reconstruct of [index] from some
    partition. *)
Definition is_step (self : t Handle) (fragment_payloads : list buffer)
    (index : Z) (c1 c2 : Call Handle) : Prop :=
  c1 = c_get_fragment_partition (handle self) fragment_payloads /\
  exists data_frags parity_frags missing_idxs first,
    head data_frags = Some first /\
    c2 = c_reconstruct (handle self) data_frags parity_frags missing_idxs
           index (len first).

Fixpoint steps (self : t Handle) (fragment_payloads : list buffer)
    (indexes : list Z) (cs : list (Call Handle)) : Prop :=
  match indexes, cs with
  | [], [] => True
  | index :: indexes, c1 :: c2 :: cs =>
      is_step self fragment_payloads index c1 c2 /\
      steps self fragment_payloads indexes cs
  | _, _ => False
  end.

(** [fragment] is what the engine returned for a single-target
    reconstruct of [index]. *)
Definition answered (self : t Handle) (index : Z) (fragment : buffer)
    : Prop :=
  exists data_frags parity_frags missing_idxs n s s',
    pyeclib_c_reconstruct E (handle self) data_frags parity_frags
      missing_idxs index n s = (inr fragment, s').

(** The exception a run ended with, if it did not return. *)
Definition failure_of {A} (res : Result A) : option Exn :=
  match res with
  | Ok _ => None
  | Raise e => Some e
  end.

(** [iterations self fragment_payloads s cs failure] reads the record [cs]
    of a run that started with the engine in state [s], turn by turn,
    against the answers of the engine.  A turn opens with the partition of
    [fragment_payloads].  When that call raises, the run ends there with
    the engine's fault.  When it answers a partition without data
    fragment, the run ends there with [IndexError], no reconstruct call
    made.  Otherwise the next call is the single-target reconstruct that
    carries the three parts of that very answer and the length of its
    first data fragment; the run ends with the engine's fault when that
    call raises, and goes on to the next turn, from the state the engine
    is then in, when it returns.  A record with no turn left is the
    record of a run that returned. *)
Fixpoint iterations (self : t Handle) (fragment_payloads : list buffer)
    (s : St) (cs : list (Call Handle)) (failure : option Exn) {struct cs}
    : Prop :=
  match cs with
  | [] => failure = None
  | c1 :: rest =>
      c1 = c_get_fragment_partition (handle self) fragment_payloads /\
      exists a s1,
        pyeclib_c_get_fragment_partition E (handle self) fragment_payloads s
        = (a, s1) /\
        match a, rest with
        | inl what, [] => failure = Some (EngineFault what)
        | inr ([], _, _), [] => failure = Some IndexError
        | inr (first :: data_frags, parity_frags, missing_idxs),
          c2 :: rest' =>
            exists index a2 s2,
              c2 = c_reconstruct (handle self) (first :: data_frags)
                     parity_frags missing_idxs index (len first) /\
              pyeclib_c_reconstruct E (handle self) (first :: data_frags)
                parity_frags missing_idxs index (len first) s1
              = (a2, s2) /\
              match a2 with
              | inl what => rest' = [] /\ failure = Some (EngineFault what)
              | inr _ => iterations self fragment_payloads s2 rest' failure
              end
        | _, _ => False
        end
  end.

End Schedule.

(** ** The scheme table of the specification *)

Inductive Scheme : Type :=
| vandermonde_RS
| cauchy_RS
| flat_XOR_3
| flat_XOR_4.

(** The scheme that a type name of [ec_types] stands for. *)
Definition scheme_of_name (type : string) : option Scheme :=
  if String.eqb type "rs_vand" then Some vandermonde_RS
  else if String.eqb type "rs_cauchy_orig" then Some cauchy_RS
  else if String.eqb type "flat_xor_3" then Some flat_XOR_3
  else if String.eqb type "flat_xor_4" then Some flat_XOR_4
  else None.

(** The field width of a scheme, as the specification gives it. *)
Definition spec_w (scheme : Scheme) : Z :=
  match scheme with
  | vandermonde_RS => 16
  | cauchy_RS => 4
  | flat_XOR_3 | flat_XOR_4 => 32
  end.

(** The Hamming distance of a scheme, as the specification gives it. *)
Definition spec_hd (scheme : Scheme) (m : Z) : Z :=
  match scheme with
  | vandermonde_RS | cauchy_RS => m + 1
  | flat_XOR_3 => 3
  | flat_XOR_4 => 4
  end.

(** ** Outcomes *)

(** The outcome is an error of the class [ECDriverError]. *)
Definition is_driver_error {A} (r : Result A) : Prop :=
  exists msg, r = Raise (ECDriverError msg).

(** A computation is tidy when, from every world, it leaves the store of
    list objects as it found it and does not end in an [ECDriverError]. *)
Definition tidy {St Handle A} (c : ECPyECLibDriver.M St Handle A) : Prop :=
  forall wd,
    ECPyECLibDriver.store (snd (c wd)) = ECPyECLibDriver.store wd /\
    ~ is_driver_error (fst (c wd)).

(** * Properties *)

(** ** ECStripingDriver *)

Section Striping.
Import ECStripingDriver.

Lemma encode_loop_length n bytes fragment_size fragments offset :
  length (fst (encode_loop n bytes fragment_size fragments offset))
  = (length fragments + n)%nat.
Proof.
  revert fragments offset.
  induction n as [|n IH]; intros fragments offset; simpl.
  - lia.
  - rewrite IH, length_app. simpl. lia.
Qed.

(** [encode] does return [k] fragments. *)
Lemma encode_count self bytes :
  1 <= k self ->
  exists fragments,
    encode self bytes = Ok fragments /\ len fragments = k self.
Proof.
  intros Hk. unfold encode.
  destruct (k self =? 0) eqn:Hz; [lia|].
  pose proof (encode_loop_length (Z.to_nat (k self - 1)) bytes
                (ceil_div (len bytes) (k self)) [] 0) as Hlen.
  destruct (encode_loop _ _ _ _ _) as [fragments offset].
  eexists; split; [reflexivity|].
  unfold len. rewrite length_app. simpl in *. lia.
Qed.

Lemma fold_left_app_concat (payloads : list buffer) (acc : buffer) :
  fold_left (fun ret_string fragment => ret_string ++ fragment) payloads acc
  = acc ++ concat payloads.
Proof.
  revert acc. induction payloads as [|p payloads IH]; intros acc; simpl.
  - by rewrite app_nil_r.
  - by rewrite IH, app_assoc.
Qed.

(** [decode] on exactly [k] payloads is their concatenation. *)
Lemma decode_exact self payloads :
  len payloads = k self -> decode self payloads = Ok (concat payloads).
Proof.
  intros Hk. unfold decode.
  destruct (len payloads =? k self) eqn:Heq; [|lia].
  simpl. by rewrite fold_left_app_concat.
Qed.

(** A slice whose lower bound is at or past its non-negative upper bound
    is empty: what [bytes[offset:fragment_size]] is from the second
    turn of the loop on. *)
Lemma py_slice_empty {A} (s : list A) start stop :
  0 <= stop <= start -> py_slice s start stop = [].
Proof.
  intros H. unfold py_slice, slice_index.
  destruct (start <? 0) eqn:H1; [lia|].
  destruct (stop <? 0) eqn:H2; [lia|].
  replace (Z.to_nat (Z.min stop (len s) - Z.min start (len s))) with O by lia.
  apply take_0.
Qed.

(** The fragments the loop appends: turn [i] appends
    [bytes[offset + i*fragment_size : fragment_size]]. *)
Lemma encode_loop_closed n bytes fragment_size fragments offset :
  encode_loop n bytes fragment_size fragments offset
  = (fragments ++
       map (fun i => py_slice bytes (offset + Z.of_nat i * fragment_size)
                       fragment_size) (seq 0 n),
     offset + Z.of_nat n * fragment_size).
Proof.
  revert fragments offset.
  induction n as [|n IH]; intros fragments offset.
  - simpl. rewrite app_nil_r. f_equal. lia.
  - cbn [encode_loop]. rewrite IH, <- app_assoc.
    f_equal; [|lia]. f_equal.
    cbn [seq map app]. rewrite <- seq_shift, map_map.
    f_equal; [f_equal; lia|].
    apply map_ext. intros i. f_equal. lia.
Qed.

(** What [encode] returns, in closed form: every slice ends at
    [fragment_size], whatever its offset. *)
Lemma encode_closed self bytes :
  k self <> 0 ->
  let fragment_size := ceil_div (len bytes) (k self) in
  encode self bytes
  = Ok (map (fun i => py_slice bytes (Z.of_nat i * fragment_size)
                        fragment_size)
          (seq 0 (Z.to_nat (k self - 1)))
        ++ [py_slice bytes
              (Z.of_nat (Z.to_nat (k self - 1)) * fragment_size)
              (len bytes - (fragment_size * k self - 1))]).
Proof.
  intros Hk fragment_size. unfold encode.
  destruct (k self =? 0) eqn:Hz; [lia|].
  rewrite encode_loop_closed. simpl. reflexivity.
Qed.

Lemma ceil_div_pos n d : 1 <= n -> 1 <= d -> 1 <= ceil_div n d.
Proof.
  intros Hn Hd. unfold ceil_div.
  assert (- n / d < 0); [|lia].
  apply Z.div_lt_upper_bound; lia.
Qed.

(** With three fragments or more, the second fragment is always empty,
    while [ceil(L/k)] is at least 1 for a buffer that is not empty. *)
Lemma encode_second_fragment_empty self bytes :
  3 <= k self -> 1 <= len bytes ->
  exists fragments,
    encode self bytes = Ok fragments /\
    fragments !! 1%nat = Some [] /\
    1 <= ceil_div (len bytes) (k self).
Proof.
  intros Hk HL.
  pose proof (ceil_div_pos (len bytes) (k self) HL ltac:(lia)) as Hfs.
  eexists. split; [apply encode_closed; lia|]. split; [|done].
  destruct (Z.to_nat (k self - 1)) as [|[|n]] eqn:Hn; [lia|lia|].
  cbn [seq map app lookup list_lookup].
  f_equal. apply py_slice_empty. lia.
Qed.

(** C1 (defect of the code).  The round trip of the striping driver
    fails on the scenario of the specification: with [k = 3] and
    [m = 0], [encode(b"hello world")] returns the three fragments
    [b"hell"], [b""], [b""]; their concatenation, which is also what
    [decode] returns for them, is [b"hell"] and not [b"hello world"]. *)
Theorem striping_roundtrip_hello_world :
  init 3 0 = Ok {| k := 3; m := 0 |} /\
  encode {| k := 3; m := 0 |} (b "hello world") = Ok [b "hell"; []; []] /\
  decode {| k := 3; m := 0 |} [b "hell"; []; []] = Ok (b "hell") /\
  concat [b "hell"; []; []] = b "hell" /\
  b "hell" <> b "hello world".
Proof. repeat split; vm_compute; congruence. Qed.

(** C2 (defect of the code).  For [L = 11] and [k = 3], [encode]
    returns three fragments of lengths 4, 0 and 0: the lengths sum to 4
    and not to 11, and the second fragment does not have the length
    [ceil(11/3) = 4]. *)
Theorem striping_encode_lengths_hello_world :
  exists fragments,
    encode {| k := 3; m := 0 |} (b "hello world") = Ok fragments /\
    len (b "hello world") = 11 /\
    len fragments = 3 /\
    map len fragments = [4; 0; 0] /\
    total_len fragments = 4 /\
    ceil_div 11 3 = 4.
Proof. eexists. repeat split. Qed.

(** [decode] on a number of payloads other than [k] evaluates
    [raise ECDriverError(...)]. *)
Lemma decode_wrong_count self payloads :
  len payloads <> k self ->
  decode self payloads = raise_ECDriverError
    "Decode requires %d fragments, %d fragments were given".
Proof.
  intros Hk. unfold decode.
  destruct (len payloads =? k self) eqn:Heq; [lia|]. reflexivity.
Qed.

(** C6 (defect of the code).  With [k = 3], [decode] of two payloads
    ([k-1]) and of four payloads ([k+1]) does fail before any result is
    built, but with [NameError] for the unbound name [ECDriverError],
    not with an error of the driver; [decode] of exactly three payloads
    returns their concatenation in the supplied order. *)
Theorem striping_decode_count_mismatch :
  decode {| k := 3; m := 0 |} [b "hell"; b "o wo"]
    = Raise (NameError "ECDriverError") /\
  decode {| k := 3; m := 0 |} [b "hell"; b "o wo"; b "rld"; b "!"]
    = Raise (NameError "ECDriverError") /\
  decode {| k := 3; m := 0 |} [b "hell"; b "o wo"; b "rld"]
    = Ok (b "hello world").
Proof. repeat split. Qed.

End Striping.

(** ** ECPyECLibDriver *)

Section Coded.
Import ECPyECLibDriver.
Context {St Handle : Type} (E : Engine St Handle).

(** Running one engine call: the call is appended to the record, and
    the store is left alone. *)
Lemma call_run {A} (c : Call Handle) (f : St -> Answer A) wd :
  exists a s',
    f (eng wd) = (a, s') /\
    call c f wd
    = (match a with inl what => Raise (EngineFault what) | inr v => Ok v end,
       {| eng := s'; calls := calls wd ++ [c]; store := store wd |}).
Proof.
  unfold call. destruct (f (eng wd)) as [a s'] eqn:Hf.
  exists a, s'. by split.
Qed.

(** Name the answer [a], the next state [s] and the equation [H] of the
    first engine call of the goal, and run the call. *)
Ltac run_call a s H :=
  match goal with
  | |- context [call ?c ?f ?x] =>
      destruct (call_run c f x) as (a & s & H & ->)
  end.

Lemma schedule_cons index indexes :
  schedule (index :: indexes)
  = s_partition :: s_reconstruct index :: schedule indexes.
Proof. reflexivity. Qed.

(** The record of one run of the loop, however the run ends: the store
    is untouched, the calls issued follow the schedule of the remaining
    indexes as far as the run went, and a run that returns has issued
    the whole schedule and appended one engine answer per index. *)
Lemma reconstruct_loop_trace self payloads indexes acc wd :
  exists res wd' new,
    reconstruct_loop E self payloads indexes acc wd = (res, wd') /\
    store wd' = store wd /\
    calls wd' = calls wd ++ new /\
    map shape new `prefix_of` schedule indexes /\
    (forall fragments, res = Ok fragments ->
       steps self payloads indexes new /\
       exists rest, fragments = acc ++ rest /\
                    Forall2 (answered E self) indexes rest).
Proof.
  revert acc wd.
  induction indexes as [|index indexes IH]; intros acc wd.
  - exists (Ok acc), wd, []. cbn. rewrite app_nil_r.
    do 4 (split; [done|]).
    intros fragments' [= <-]. split; [done|].
    exists []. by rewrite app_nil_r.
  - cbn [reconstruct_loop]. unfold bind at 1.
    destruct (call_run (c_get_fragment_partition (handle self) payloads)
                (pyeclib_c_get_fragment_partition E (handle self) payloads)
                wd) as (a & s1 & Ha & ->).
    destruct a as [what|[[data_frags parity_frags] missing_idxs]].
    { eexists _, _, [_]. do 3 (split; [done|]). split; [|done].
      rewrite (schedule_cons index indexes). cbn.
      apply prefix_cons, prefix_nil. }
    destruct data_frags as [|first data_frags].
    { eexists _, _, [_]. do 3 (split; [done|]). split; [|done].
      rewrite (schedule_cons index indexes). apply prefix_cons, prefix_nil. }
    cbn [item0]. unfold bind at 1. unfold ret at 1. unfold bind at 1.
    run_call a s2 Ha2.
    destruct a as [what|reconstructed].
    { eexists _, _, [_; _]. split; [done|]. split; [done|].
      split; [cbn; by rewrite <- app_assoc|]. split; [|done].
      rewrite (schedule_cons index indexes).
      apply prefix_cons, prefix_cons, prefix_nil. }
    match goal with
    | |- context [reconstruct_loop E self payloads indexes ?acc' ?x] =>
        destruct (IH acc' x) as (res & wd' & new & -> & Hst & Hc & Hp & Hok)
    end.
    exists res, wd', (c_get_fragment_partition (handle self) payloads
                      :: c_reconstruct (handle self) (first :: data_frags)
                           parity_frags missing_idxs index (len first)
                      :: new).
    split; [done|]. split; [done|].
    split; [rewrite Hc; cbn; by rewrite <- !app_assoc|].
    split.
    { rewrite (schedule_cons index indexes). cbn.
      by apply prefix_cons, prefix_cons. }
    intros fragments' Hres.
    destruct (Hok _ Hres) as (Hsteps & rest & -> & HF).
    split.
    + split; [|done]. split; [done|].
      by exists (first :: data_frags), parity_frags, missing_idxs, first.
    + exists (reconstructed :: rest). split; [by rewrite <- app_assoc|].
      constructor; [|done].
      by eexists _, _, _, _, _, _.
Qed.

(** The run returns when the engine answers every partition call with
    at least one data fragment and every reconstruct call with a
    fragment. *)
Lemma reconstruct_loop_returns self payloads indexes acc wd :
  (forall s, exists first data_frags parity_frags missing_idxs s',
      pyeclib_c_get_fragment_partition E (handle self) payloads s
      = (inr (first :: data_frags, parity_frags, missing_idxs), s')) ->
  (forall data_frags parity_frags missing_idxs index n s,
      exists fragment s',
        pyeclib_c_reconstruct E (handle self) data_frags parity_frags
          missing_idxs index n s = (inr fragment, s')) ->
  exists fragments wd',
    reconstruct_loop E self payloads indexes acc wd = (Ok fragments, wd').
Proof.
  intros Hpart Hrec. revert acc wd.
  induction indexes as [|index indexes IH]; intros acc wd.
  - by exists acc, wd.
  - cbn [reconstruct_loop]. unfold bind at 1. unfold call at 1.
    destruct (Hpart (eng wd)) as (first & d & p & mi & s1 & ->).
    cbn [item0]. unfold bind at 1. unfold ret at 1.
    unfold bind at 1. unfold call at 1. cbn [eng].
    destruct (Hrec (first :: d) p mi index (len first) s1)
      as (fragment & s2 & ->).
    apply IH.
Qed.

Lemma reconstructed_indexes_app (cs1 cs2 : list (Call Handle)) :
  reconstructed_indexes (cs1 ++ cs2)
  = reconstructed_indexes cs1 ++ reconstructed_indexes cs2.
Proof. unfold reconstructed_indexes. apply flat_map_app. Qed.

(** The reconstruct calls of a record that follows a schedule as far as
    it goes are for a prefix of the scheduled indexes. *)
Lemma reconstructed_indexes_prefix (cs : list (Call Handle)) indexes :
  map shape cs `prefix_of` schedule indexes ->
  reconstructed_indexes cs `prefix_of` indexes.
Proof.
  revert cs. induction indexes as [|index indexes IH]; intros cs Hp.
  - cbn in Hp. apply prefix_nil_inv in Hp.
    destruct cs; [done|discriminate].
  - rewrite (schedule_cons index indexes) in Hp.
    destruct cs as [|c1 [|c2 cs]].
    + apply prefix_nil.
    + cbn in Hp. apply prefix_cons_inv_1 in Hp.
      unfold reconstructed_indexes. cbn. rewrite Hp. apply prefix_nil.
    + cbn [map] in Hp.
      pose proof (prefix_cons_inv_1 _ _ _ _ Hp) as H1.
      apply prefix_cons_inv_2 in Hp.
      pose proof (prefix_cons_inv_1 _ _ _ _ Hp) as H2.
      apply prefix_cons_inv_2 in Hp.
      change (c1 :: c2 :: cs) with ([c1; c2] ++ cs).
      rewrite reconstructed_indexes_app.
      unfold reconstructed_indexes at 1. cbn. rewrite H1, H2. cbn.
      apply prefix_cons, IH, Hp.
Qed.

Lemma steps_schedule self payloads indexes (cs : list (Call Handle)) :
  steps self payloads indexes cs ->
  map shape cs = schedule indexes /\ reconstructed_indexes cs = indexes.
Proof.
  revert cs. induction indexes as [|index indexes IH]; intros cs Hs.
  - destruct cs; [done|contradiction].
  - destruct cs as [|c1 [|c2 cs]]; try contradiction.
    destruct Hs as [[-> (d & p & mi & first & _ & ->)] Hs].
    destruct (IH _ Hs) as [IH1 IH2].
    rewrite (schedule_cons index indexes). cbn [map shape].
    split; [by rewrite IH1|].
    unfold reconstructed_indexes in *. cbn. by rewrite IH2.
Qed.

(** In an ascending list, an index below [k] stands before every index
    at or above [k]. *)
Lemma sorted_data_before_parity (l : list Z) (k : Z) i j a b :
  StronglySorted Z.le l ->
  l !! i = Some a -> l !! j = Some b -> a < k <= b -> (i < j)%nat.
Proof.
  intros Hs Hi Hj Hab.
  destruct (decide (i < j)%nat) as [|Hge]; [done|exfalso].
  destruct (decide (i = j)) as [->|Hne]; [simplify_eq; lia|].
  assert (j < i)%nat as Hlt by lia.
  clear Hge Hne. revert i j Hi Hj Hlt.
  induction Hs as [|x l Hs IH Hall]; intros i j Hi Hj Hlt.
  - by rewrite lookup_nil in Hi.
  - destruct j as [|j]; destruct i as [|i]; try lia.
    + cbn in Hi, Hj. simplify_eq.
      rewrite Forall_forall in Hall.
      assert (b <= a); [|lia].
      apply Hall. by eapply list_elem_of_lookup_2.
    + cbn in Hi, Hj. apply (IH i j); [done|done|lia].
Qed.

(** [l.sort()] on integers: ascending, and a rearrangement. *)
Lemma sort_sorted (l : list Z) : StronglySorted Z.le (merge_sort Z.le l).
Proof. apply StronglySorted_merge_sort; apply _. Qed.

Lemma sort_permutation (l : list Z) : Permutation (merge_sort Z.le l) l.
Proof. apply merge_sort_Permutation. Qed.

(** [reconstruct] sorts the caller's list object, then runs the loop on
    a copy of it. *)
Lemma reconstruct_unfold self payloads r targets wd :
  store wd !! r = Some targets ->
  reconstruct E self payloads r wd
  = reconstruct_loop E self payloads (merge_sort Z.le targets) []
      {| eng := eng wd; calls := calls wd;
         store := alter (merge_sort Z.le) r (store wd) |}.
Proof.
  intros Hr. unfold reconstruct, bind, list_sort, list_copy. cbn [store].
  by rewrite list_lookup_alter_eq, Hr.
Qed.

(** Every run of [reconstruct], returning or not: the caller's list
    object is left sorted, and the targets reached were reached in
    ascending order, one partition call and then one reconstruct call
    each. *)
Lemma reconstruct_any_run self payloads r targets wd :
  store wd !! r = Some targets ->
  exists res wd' new,
    reconstruct E self payloads r wd = (res, wd') /\
    store wd' = alter (merge_sort Z.le) r (store wd) /\
    calls wd' = calls wd ++ new /\
    map shape new `prefix_of` schedule (merge_sort Z.le targets) /\
    reconstructed_indexes new `prefix_of` merge_sort Z.le targets.
Proof.
  intros Hr. rewrite (reconstruct_unfold _ _ _ _ _ Hr).
  match goal with
  | |- context [reconstruct_loop E self payloads ?l ?acc ?x] =>
      destruct (reconstruct_loop_trace self payloads l acc x)
        as (res & wd' & new & -> & Hst & Hc & Hp & _)
  end.
  exists res, wd', new. do 4 (split; [done|]).
  by apply reconstructed_indexes_prefix.
Qed.

(** C3.  Whatever the order of the target indexes in the caller's list,
    when the engine answers its calls (every partition with at least one
    data fragment, every reconstruct with a fragment), [reconstruct]
    returns, and: the targets are processed in ascending order, the
    sorted rearrangement of the list; the calls issued are, for each
    target in that order, exactly one fragment-partition call followed
    by one single-target reconstruct call; every reconstruct call for a
    data index (below [k]) is issued before every reconstruct call for a
    parity index ([k] or above); and the result holds one fragment per
    target, the engine's answer for that target, in ascending order of
    the targets. *)
Theorem reconstruct_ascending self payloads r targets wd :
  store wd !! r = Some targets ->
  (forall s, exists first data_frags parity_frags missing_idxs s',
      pyeclib_c_get_fragment_partition E (handle self) payloads s
      = (inr (first :: data_frags, parity_frags, missing_idxs), s')) ->
  (forall data_frags parity_frags missing_idxs index n s,
      exists fragment s',
        pyeclib_c_reconstruct E (handle self) data_frags parity_frags
          missing_idxs index n s = (inr fragment, s')) ->
  exists fragments wd' new,
    reconstruct E self payloads r wd = (Ok fragments, wd') /\
    StronglySorted Z.le (merge_sort Z.le targets) /\
    Permutation (merge_sort Z.le targets) targets /\
    calls wd' = calls wd ++ new /\
    steps self payloads (merge_sort Z.le targets) new /\
    map shape new = schedule (merge_sort Z.le targets) /\
    reconstructed_indexes new = merge_sort Z.le targets /\
    (forall i j a b,
        reconstructed_indexes new !! i = Some a ->
        reconstructed_indexes new !! j = Some b ->
        a < k self <= b -> (i < j)%nat) /\
    length fragments = length targets /\
    Forall2 (answered E self) (merge_sort Z.le targets) fragments.
Proof.
  intros Hr Hpart Hrec.
  rewrite (reconstruct_unfold _ _ _ _ _ Hr).
  match goal with
  | |- context [reconstruct_loop E self payloads ?l ?acc ?x] =>
      destruct (reconstruct_loop_returns self payloads l acc x Hpart Hrec)
        as (fragments & wd' & Hrun);
      destruct (reconstruct_loop_trace self payloads l acc x)
        as (res & wd2 & new & Hrun2 & Hst & Hc & Hp & Hok)
  end.
  rewrite Hrun in Hrun2. injection Hrun2 as <- <-.
  destruct (Hok _ eq_refl) as (Hsteps & rest & Hrest & HF).
  cbn [app] in Hrest. subst rest.
  destruct (steps_schedule _ _ _ _ Hsteps) as [Hshape Hidx].
  exists fragments, wd', new.
  split; [done|]. split; [apply sort_sorted|].
  split; [apply sort_permutation|].
  split; [done|]. split; [done|]. split; [done|]. split; [done|].
  split.
  { intros i j a b Hi Hj Hab. rewrite Hidx in Hi, Hj.
    eapply sorted_data_before_parity; eauto using sort_sorted. }
  split; [|done].
  rewrite <- (Forall2_length _ _ _ HF).
  apply Permutation_length, sort_permutation.
Qed.

(** *** decode *)

(** The fast path: the first [fragments_to_string] returns a string. *)
Lemma decode_fast self payloads wd ret_string s1 :
  pyeclib_c_fragments_to_string E (handle self) payloads (eng wd)
  = (inr (Some ret_string), s1) ->
  decode E self payloads wd
  = (Ok (Some ret_string),
     {| eng := s1;
        calls := calls wd ++ [c_fragments_to_string (handle self) payloads];
        store := store wd |}).
Proof.
  intros H. unfold decode, bind, try_except, call. by rewrite H.
Qed.

(** A fault of the first [fragments_to_string] is caught, and the
    handler runs [raise ECDriverError(...)]. *)
Lemma decode_fast_fault self payloads wd what s1 :
  pyeclib_c_fragments_to_string E (handle self) payloads (eng wd)
  = (inl what, s1) ->
  decode E self payloads wd
  = (raise_ECDriverError "Error in ECPyECLibDriver.decode",
     {| eng := s1;
        calls := calls wd ++ [c_fragments_to_string (handle self) payloads];
        store := store wd |}).
Proof.
  intros H. unfold decode, bind, try_except, call, lift. by rewrite H.
Qed.

(** The repair path up to the first-element access: the partition call
    follows the fast-path call. *)
Lemma decode_repair_fault_partition self payloads wd s1 what s2 :
  pyeclib_c_fragments_to_string E (handle self) payloads (eng wd)
  = (inr None, s1) ->
  pyeclib_c_get_fragment_partition E (handle self) payloads s1
  = (inl what, s2) ->
  decode E self payloads wd
  = (Raise (EngineFault what),
     {| eng := s2;
        calls := calls wd ++ [c_fragments_to_string (handle self) payloads]
                   ++ [c_get_fragment_partition (handle self) payloads];
        store := store wd |}).
Proof.
  intros H1 H2. unfold decode, bind, try_except, call.
  rewrite H1. cbn [eng calls store]. rewrite H2.
  by rewrite <- app_assoc.
Qed.

Lemma decode_no_data self payloads wd s1 parity_frags missing_idxs s2 :
  pyeclib_c_fragments_to_string E (handle self) payloads (eng wd)
  = (inr None, s1) ->
  pyeclib_c_get_fragment_partition E (handle self) payloads s1
  = (inr ([], parity_frags, missing_idxs), s2) ->
  decode E self payloads wd
  = (Raise IndexError,
     {| eng := s2;
        calls := calls wd ++ [c_fragments_to_string (handle self) payloads]
                   ++ [c_get_fragment_partition (handle self) payloads];
        store := store wd |}).
Proof.
  intros H1 H2. unfold decode, bind, try_except, call.
  rewrite H1. cbn [eng calls store]. rewrite H2. cbn.
  by rewrite <- app_assoc.
Qed.

(** The repair path past the first-element access: the engine's [decode]
    is called with the length of the first data fragment, and the
    outcome of the method is the outcome of that call followed, when it
    returns, by the second [fragments_to_string]. *)
Lemma decode_repair self payloads wd s1 first data_frags parity_frags
    missing_idxs s2 :
  pyeclib_c_fragments_to_string E (handle self) payloads (eng wd)
  = (inr None, s1) ->
  pyeclib_c_get_fragment_partition E (handle self) payloads s1
  = (inr (first :: data_frags, parity_frags, missing_idxs), s2) ->
  decode E self payloads wd
  = bind
      (call (c_decode (handle self) (first :: data_frags) parity_frags
               missing_idxs (len first))
         (pyeclib_c_decode E (handle self) (first :: data_frags)
            parity_frags missing_idxs (len first)))
      (fun decoded_fragments =>
         call (c_fragments_to_string (handle self) decoded_fragments)
           (pyeclib_c_fragments_to_string E (handle self)
              decoded_fragments))
      {| eng := s2;
         calls := calls wd ++ [c_fragments_to_string (handle self) payloads]
                    ++ [c_get_fragment_partition (handle self) payloads];
         store := store wd |}.
Proof.
  intros H1 H2. unfold decode, try_except.
  unfold bind at 1. unfold call at 1. rewrite H1.
  unfold bind at 1. unfold call at 1. cbn [eng calls store]. rewrite H2.
  cbn [item0]. unfold bind at 1. unfold ret at 1.
  by rewrite <- app_assoc.
Qed.

(** On the repair path a fault of the engine's [decode] reaches the
    caller as it is: no handler is around it. *)
Lemma decode_repair_fault_decode self payloads wd s1 first data_frags
    parity_frags missing_idxs s2 what s3 :
  pyeclib_c_fragments_to_string E (handle self) payloads (eng wd)
  = (inr None, s1) ->
  pyeclib_c_get_fragment_partition E (handle self) payloads s1
  = (inr (first :: data_frags, parity_frags, missing_idxs), s2) ->
  pyeclib_c_decode E (handle self) (first :: data_frags) parity_frags
    missing_idxs (len first) s2 = (inl what, s3) ->
  fst (decode E self payloads wd) = Raise (EngineFault what).
Proof.
  intros H1 H2 H3. rewrite (decode_repair _ _ _ _ _ _ _ _ _ H1 H2).
  unfold bind, call. cbn [eng]. by rewrite H3.
Qed.

(** *** The per-fragment byte length *)

(** One turn of the loop when the partition has no data fragment. *)
Lemma reconstruct_loop_no_data self payloads index rest acc wd
    parity_frags missing_idxs s1 :
  pyeclib_c_get_fragment_partition E (handle self) payloads (eng wd)
  = (inr ([], parity_frags, missing_idxs), s1) ->
  reconstruct_loop E self payloads (index :: rest) acc wd
  = (Raise IndexError,
     {| eng := s1;
        calls := calls wd ++ [c_get_fragment_partition (handle self) payloads];
        store := store wd |}).
Proof.
  intros H. cbn [reconstruct_loop]. unfold bind, call. by rewrite H.
Qed.

(** One turn of the loop when the partition has a data fragment. *)
Lemma reconstruct_loop_data self payloads index rest acc wd
    first data_frags parity_frags missing_idxs s1 :
  pyeclib_c_get_fragment_partition E (handle self) payloads (eng wd)
  = (inr (first :: data_frags, parity_frags, missing_idxs), s1) ->
  exists res wd' more,
    reconstruct_loop E self payloads (index :: rest) acc wd = (res, wd') /\
    calls wd'
    = calls wd
      ++ [c_get_fragment_partition (handle self) payloads;
          c_reconstruct (handle self) (first :: data_frags) parity_frags
            missing_idxs index (len first)]
      ++ more.
Proof.
  intros H. cbn [reconstruct_loop].
  unfold bind at 1. unfold call at 1. rewrite H.
  cbn [item0]. unfold bind at 1. unfold ret at 1. unfold bind at 1.
  run_call a s2 Ha2.
  cbn [eng calls store].
  destruct a as [what|reconstructed].
  - eexists _, _, []. split; [done|]. cbn [calls].
    by rewrite app_nil_r, <- app_assoc.
  - match goal with
    | |- context [reconstruct_loop E self payloads rest ?acc' ?x] =>
        destruct (reconstruct_loop_trace self payloads rest acc' x)
          as (res & wd' & new & -> & _ & Hc & _)
    end.
    exists res, wd', new. split; [done|].
    rewrite Hc. cbn [calls]. by rewrite <- !app_assoc.
Qed.

(** The record of a run of the loop, read turn by turn against the
    answers of the engine. *)
Lemma reconstruct_loop_iterations self payloads indexes acc wd :
  exists res wd' new,
    reconstruct_loop E self payloads indexes acc wd = (res, wd') /\
    calls wd' = calls wd ++ new /\
    iterations E self payloads (eng wd) new (failure_of res).
Proof.
  revert acc wd. induction indexes as [|index indexes IH]; intros acc wd.
  - exists (Ok acc), wd, []. cbn. by rewrite app_nil_r.
  - cbn [reconstruct_loop]. unfold bind at 1. unfold call at 1.
    destruct (pyeclib_c_get_fragment_partition E (handle self) payloads
                (eng wd))
      as [[what|[[[|first data_frags] parity_frags] missing_idxs]] s1]
      eqn:Ha.
    + eexists _, _, [_]. split; [done|]. split; [done|].
      split; [done|]. eexists _, _. split; [exact Ha|done].
    + eexists _, _, [_]. split; [done|]. split; [done|].
      split; [done|]. eexists _, _. split; [exact Ha|done].
    + cbn [item0]. unfold bind at 1. unfold ret at 1.
      unfold bind at 1. unfold call at 1. cbn [eng calls store].
      destruct (pyeclib_c_reconstruct E (handle self) (first :: data_frags)
                  parity_frags missing_idxs index (len first) s1)
        as [[what|reconstructed] s2] eqn:Ha2.
      * eexists _, _, [_; _]. split; [done|].
        split; [cbn; by rewrite <- app_assoc|].
        split; [done|]. eexists _, _. split; [exact Ha|].
        eexists _, _, _. split; [done|]. split; [exact Ha2|done].
      * match goal with
        | |- context [reconstruct_loop E self payloads indexes ?acc' ?x] =>
            destruct (IH acc' x) as (res & wd' & new & -> & Hc & Hit)
        end.
        eexists res, wd', (_ :: _ :: new). split; [done|].
        split; [rewrite Hc; cbn; by rewrite <- !app_assoc|].
        split; [done|]. eexists _, _. split; [exact Ha|].
        eexists _, _, _. split; [done|]. split; [exact Ha2|exact Hit].
Qed.

(** The record of a run of [reconstruct], read against the engine, with
    the targets it reached. *)
Lemma reconstruct_iterations self payloads r targets wd :
  store wd !! r = Some targets ->
  exists res wd' new,
    reconstruct E self payloads r wd = (res, wd') /\
    calls wd' = calls wd ++ new /\
    iterations E self payloads (eng wd) new (failure_of res) /\
    reconstructed_indexes new `prefix_of` merge_sort Z.le targets /\
    (forall fragments,
        res = Ok fragments ->
        reconstructed_indexes new = merge_sort Z.le targets).
Proof.
  intros Hr. rewrite (reconstruct_unfold _ _ _ _ _ Hr).
  match goal with
  | |- context [reconstruct_loop E self payloads ?l ?acc ?x] =>
      destruct (reconstruct_loop_iterations self payloads l acc x)
        as (res & wd' & new & Hrun & Hc & Hit);
      destruct (reconstruct_loop_trace self payloads l acc x)
        as (res2 & wd2 & new2 & Hrun2 & _ & Hc2 & Hp & Hok)
  end.
  rewrite Hrun in Hrun2. injection Hrun2 as <- <-.
  rewrite Hc in Hc2. apply app_inv_head in Hc2. subst new2.
  exists res, wd', new. split; [done|]. split; [done|]. split; [done|].
  split; [by apply reconstructed_indexes_prefix|].
  intros fragments Hres. destruct (Hok _ Hres) as [Hsteps _].
  by destruct (steps_schedule _ _ _ _ Hsteps).
Qed.

(** C10.  The repair path of [decode] and every turn of [reconstruct]
    pass to the engine, as the per-fragment byte length, the length of
    the first element of the data-fragment list of the partition.  When
    the partition has no data fragment, [decode], any turn of the loop,
    and so [reconstruct] on a list of targets that is not empty, fail
    with [IndexError] right after the partition call: the engine's
    [decode] or [reconstruct] is not called.  For the method
    [reconstruct] itself: when the first partition has a data fragment,
    the first two calls are that partition and the reconstruct of the
    smallest target with the length of that fragment; and in every run,
    every turn is a partition call followed, unless the run ends there,
    by the reconstruct call that carries the parts of the partition the
    engine just answered and the length of its first data fragment, a
    partition without data fragment ends the run with [IndexError], and
    a run that returns has had one such turn for each target. *)
Theorem first_data_fragment_length self payloads wd :
  (forall s1 parity_frags missing_idxs s2,
      pyeclib_c_fragments_to_string E (handle self) payloads (eng wd)
      = (inr None, s1) ->
      pyeclib_c_get_fragment_partition E (handle self) payloads s1
      = (inr ([], parity_frags, missing_idxs), s2) ->
      decode E self payloads wd
      = (Raise IndexError,
         {| eng := s2;
            calls := calls wd
                     ++ [c_fragments_to_string (handle self) payloads;
                         c_get_fragment_partition (handle self) payloads];
            store := store wd |})) /\
  (forall s1 first data_frags parity_frags missing_idxs s2,
      pyeclib_c_fragments_to_string E (handle self) payloads (eng wd)
      = (inr None, s1) ->
      pyeclib_c_get_fragment_partition E (handle self) payloads s1
      = (inr (first :: data_frags, parity_frags, missing_idxs), s2) ->
      exists res wd' more,
        decode E self payloads wd = (res, wd') /\
        calls wd'
        = calls wd
          ++ [c_fragments_to_string (handle self) payloads;
              c_get_fragment_partition (handle self) payloads;
              c_decode (handle self) (first :: data_frags) parity_frags
                missing_idxs (len first)]
          ++ more) /\
  (forall index rest acc parity_frags missing_idxs s1,
      pyeclib_c_get_fragment_partition E (handle self) payloads (eng wd)
      = (inr ([], parity_frags, missing_idxs), s1) ->
      reconstruct_loop E self payloads (index :: rest) acc wd
      = (Raise IndexError,
         {| eng := s1;
            calls := calls wd
                     ++ [c_get_fragment_partition (handle self) payloads];
            store := store wd |})) /\
  (forall index rest acc first data_frags parity_frags missing_idxs s1,
      pyeclib_c_get_fragment_partition E (handle self) payloads (eng wd)
      = (inr (first :: data_frags, parity_frags, missing_idxs), s1) ->
      exists res wd' more,
        reconstruct_loop E self payloads (index :: rest) acc wd
        = (res, wd') /\
        calls wd'
        = calls wd
          ++ [c_get_fragment_partition (handle self) payloads;
              c_reconstruct (handle self) (first :: data_frags)
                parity_frags missing_idxs index (len first)]
          ++ more) /\
  (forall r targets parity_frags missing_idxs s1,
      store wd !! r = Some targets -> targets <> [] ->
      pyeclib_c_get_fragment_partition E (handle self) payloads (eng wd)
      = (inr ([], parity_frags, missing_idxs), s1) ->
      exists wd',
        reconstruct E self payloads r wd = (Raise IndexError, wd') /\
        calls wd'
        = calls wd ++ [c_get_fragment_partition (handle self) payloads]) /\
  (forall r targets first data_frags parity_frags missing_idxs s1,
      store wd !! r = Some targets -> targets <> [] ->
      pyeclib_c_get_fragment_partition E (handle self) payloads (eng wd)
      = (inr (first :: data_frags, parity_frags, missing_idxs), s1) ->
      exists index rest res wd' more,
        merge_sort Z.le targets = index :: rest /\
        reconstruct E self payloads r wd = (res, wd') /\
        calls wd'
        = calls wd
          ++ [c_get_fragment_partition (handle self) payloads;
              c_reconstruct (handle self) (first :: data_frags)
                parity_frags missing_idxs index (len first)]
          ++ more) /\
  (forall r targets,
      store wd !! r = Some targets ->
      exists res wd' new,
        reconstruct E self payloads r wd = (res, wd') /\
        calls wd' = calls wd ++ new /\
        iterations E self payloads (eng wd) new (failure_of res) /\
        reconstructed_indexes new `prefix_of` merge_sort Z.le targets /\
        (forall fragments,
            res = Ok fragments ->
            reconstructed_indexes new = merge_sort Z.le targets)).
Proof.
  split; [|split; [|split; [|split; [|split; [|split]]]]].
  - intros s1 p mi s2 H1 H2.
    by rewrite (decode_no_data _ _ _ _ _ _ _ H1 H2).
  - intros s1 first d p mi s2 H1 H2.
    rewrite (decode_repair _ _ _ _ _ _ _ _ _ H1 H2).
    unfold bind at 1.
    run_call a s3 Ha.
    cbn [eng calls store].
    destruct a as [what|decoded_fragments].
    + eexists _, _, []. split; [done|]. cbn [calls].
      by rewrite app_nil_r, <- !app_assoc.
    + run_call a s4 Ha4.
      eexists _, _, [_]. split; [done|]. cbn [calls].
      by rewrite <- !app_assoc.
  - intros. by apply reconstruct_loop_no_data with parity_frags missing_idxs.
  - intros. by eapply reconstruct_loop_data.
  - intros r targets p mi s1 Hr Hne H.
    rewrite (reconstruct_unfold _ _ _ _ _ Hr).
    destruct (merge_sort Z.le targets) as [|index rest] eqn:Hs.
    { pose proof (sort_permutation targets) as HP. rewrite Hs in HP.
      apply Permutation_nil in HP. congruence. }
    rewrite (reconstruct_loop_no_data _ _ _ _ _ _ p mi s1) by done.
    by eexists.
  - intros r targets first d p mi s1 Hr Hne H.
    destruct (merge_sort Z.le targets) as [|index rest] eqn:Hs.
    { pose proof (sort_permutation targets) as HP. rewrite Hs in HP.
      apply Permutation_nil in HP. congruence. }
    rewrite (reconstruct_unfold _ _ _ _ _ Hr), Hs.
    match goal with
    | |- context [reconstruct_loop E self payloads _ ?acc ?x] =>
        destruct (reconstruct_loop_data self payloads index rest acc x
                    first d p mi s1 H) as (res & wd' & more & Hrun & Hc)
    end.
    by exists index, rest, res, wd', more.
  - intros r targets Hr. by apply reconstruct_iterations.
Qed.

(** *** Tidy computations *)

Lemma tidy_ret {A} (a : A) : tidy (@ret St Handle A a).
Proof. intros wd. split; [done|]. by intros [msg [=]]. Qed.

Lemma tidy_raise {A} e :
  (forall msg, e <> ECDriverError msg) ->
  tidy (@lift St Handle A (Raise e)).
Proof.
  intros He wd. split; [done|]. intros [msg [= ->]]. by eapply He.
Qed.

(** [raise ECDriverError(msg)] is among them: the name is unbound. *)
Lemma tidy_raise_ECDriverError {A} msg :
  tidy (@lift St Handle A (raise_ECDriverError msg)).
Proof. by apply tidy_raise. Qed.

Lemma tidy_call {A} (c : Call Handle) (f : St -> Answer A) :
  tidy (call c f).
Proof.
  intros wd. destruct (call_run c f wd) as (a & s' & _ & ->).
  split; [done|]. cbn [fst]. by destruct a; intros [msg [=]].
Qed.

Lemma tidy_bind {A B} (c : M St Handle A) (f : A -> M St Handle B) :
  tidy c -> (forall a, tidy (f a)) -> tidy (bind c f).
Proof.
  intros Hc Hf wd. unfold bind.
  destruct (Hc wd) as [Hs He]. destruct (c wd) as [[a|e] wd1].
  - destruct (Hf a wd1) as [Hs' He']. cbn [snd] in Hs.
    split; [congruence|done].
  - split; [exact Hs|].
    intros [msg [= ->]]. apply He. by exists msg.
Qed.

Lemma tidy_try_except {A} (body handler : M St Handle A) :
  tidy body -> tidy handler -> tidy (try_except body handler).
Proof.
  intros Hb Hh wd. unfold try_except.
  destruct (Hb wd) as [Hs He]. destruct (body wd) as [[a|e] wd1].
  - exact (conj Hs He).
  - destruct (Hh wd1) as [Hs' He']. cbn [snd] in Hs.
    split; [congruence|done].
Qed.

Lemma tidy_item0 {A} (l : list A) : tidy (@item0 St Handle A l).
Proof. destruct l; [by apply tidy_raise|apply tidy_ret]. Qed.

Lemma tidy_list_copy r : tidy (@list_copy St Handle r).
Proof. intros wd. split; [done|]. by intros [msg [=]]. Qed.

Lemma tidy_init k m type : tidy (init E k m type).
Proof.
  unfold init. destruct (str_in type ec_types).
  - destruct (w_hd m type) as [w hd].
    apply tidy_bind; [apply tidy_call|intros; apply tidy_ret].
  - apply tidy_raise_ECDriverError.
Qed.

Lemma tidy_encode self bytes : tidy (encode E self bytes).
Proof. apply tidy_call. Qed.

Lemma tidy_decode self payloads : tidy (decode E self payloads).
Proof.
  unfold decode. apply tidy_bind.
  - apply tidy_try_except;
      [apply tidy_call|apply tidy_raise_ECDriverError].
  - intros [ret_string|]; [apply tidy_ret|].
    apply tidy_bind; [apply tidy_call|].
    intros [[data_frags parity_frags] missing_idxs].
    apply tidy_bind; [apply tidy_item0|]. intros first.
    apply tidy_bind; [apply tidy_call|]. intros. apply tidy_call.
Qed.

Lemma tidy_reconstruct_loop self payloads indexes acc :
  tidy (reconstruct_loop E self payloads indexes acc).
Proof.
  revert acc. induction indexes as [|index indexes IH]; intros acc.
  - apply tidy_ret.
  - cbn [reconstruct_loop]. apply tidy_bind; [apply tidy_call|].
    intros [[data_frags parity_frags] missing_idxs].
    apply tidy_bind; [apply tidy_item0|]. intros first.
    apply tidy_bind; [apply tidy_call|]. intros. apply IH.
Qed.

Lemma tidy_fragments_needed self missing :
  tidy (fragments_needed E self missing).
Proof. apply tidy_call. Qed.

(** [reconstruct] is tidy after its first statement, the in-place sort:
    in every run, the store it leaves is the store it found with the
    list object at [indexes_to_reconstruct] sorted. *)
Lemma reconstruct_store self payloads r wd :
  store (snd (reconstruct E self payloads r wd))
  = alter (merge_sort Z.le) r (store wd) /\
  ~ is_driver_error (fst (reconstruct E self payloads r wd)).
Proof.
  unfold reconstruct. unfold bind at 1. unfold list_sort at 1.
  match goal with
  | |- context [bind ?c ?f ?x] =>
      assert (tidy (bind c f)) as Ht
  end.
  { apply tidy_bind; [apply tidy_list_copy|].
    intros. apply tidy_reconstruct_loop. }
  apply Ht.
Qed.

(** *** Construction *)

Lemma raise_ECDriverError_unbound {A} msg :
  @raise_ECDriverError A msg = Raise (NameError "ECDriverError").
Proof. reflexivity. Qed.

Lemma str_in_ec_types type :
  str_in type ec_types = true ->
  type = ec_rs_vand \/ type = ec_rs_cauchy_orig \/
  type = ec_flat_xor_3 \/ type = ec_flat_xor_4.
Proof.
  unfold str_in, ec_types. cbn [existsb].
  rewrite orb_false_r, !orb_true_iff, !String.eqb_eq. tauto.
Qed.

(** A type name of [ec_types] goes on to the engine's [init], with the
    [w] of the chain; the outcome of the constructor is the outcome of
    that call. *)
Lemma init_valid k m type wd :
  str_in type ec_types = true ->
  exists a s',
    pyeclib_c_init E k m (fst (w_hd m type)) type (eng wd) = (a, s') /\
    init E k m type wd
    = (match a with
       | inl what => Raise (EngineFault what)
       | inr h => Ok {| k := k; m := m; type := type;
                        w := fst (w_hd m type); hd := snd (w_hd m type);
                        handle := h |}
       end,
       {| eng := s';
          calls := calls wd ++ [c_init k m (fst (w_hd m type)) type];
          store := store wd |}).
Proof.
  intros Hin. unfold init. rewrite Hin.
  destruct (w_hd m type) as [w hd]. cbn [fst snd].
  unfold bind, call, ret.
  destruct (pyeclib_c_init E k m w type (eng wd)) as [a s'].
  exists a, s'. split; [done|]. by destruct a.
Qed.

Lemma init_invalid k m type wd :
  str_in type ec_types = false ->
  init E k m type wd = (Raise (NameError "ECDriverError"), wd).
Proof. intros Hin. unfold init. by rewrite Hin. Qed.

(** C4, as amended.  Constructing the striping driver with [m <> 0]
    fails.  Constructing the coded driver with a type name outside
    [ec_types] fails, before any call to the engine.  The coded driver
    makes no check of [(k, m)] for the XOR schemes: for [flat_xor_3] and
    [flat_xor_4] and every [(k, m)], it calls the engine's [init] with
    [(k, m, 32, type)], and the construction returns a driver exactly
    when that call returns a handle, and fails with the engine's fault
    when it raises. *)
Theorem construction_checks k m type wd :
  (m <> 0 -> exists e, ECStripingDriver.init k m = Raise e) /\
  (str_in type ec_types = false ->
   exists e, init E k m type wd = (Raise e, wd)) /\
  (type = ec_flat_xor_3 \/ type = ec_flat_xor_4 ->
   exists a s',
     pyeclib_c_init E k m 32 type (eng wd) = (a, s') /\
     init E k m type wd
     = (match a with
        | inl what => Raise (EngineFault what)
        | inr h => Ok {| k := k; m := m; type := type; w := 32;
                         hd := snd (w_hd m type); handle := h |}
        end,
        {| eng := s'; calls := calls wd ++ [c_init k m 32 type];
           store := store wd |})).
Proof.
  split; [|split].
  - intros Hm. unfold ECStripingDriver.init.
    destruct (m =? 0) eqn:Heq; [lia|]. by eexists.
  - intros Hin. eexists. by apply init_invalid.
  - intros Hxor.
    assert (str_in type ec_types = true /\ fst (w_hd m type) = 32)
      as [Hin Hw] by (by destruct Hxor as [-> | ->]).
    destruct (init_valid k m type wd Hin) as (a & s' & Ha & Hinit).
    rewrite Hw in Ha, Hinit. by exists a, s'.
Qed.

(** C8.  A coded driver that was constructed has the [w] and the [hd] of
    the scheme its type name stands for, from the table of the
    specification: they are computed from [type] and [m] alone, and [w]
    is the width handed to the engine's [init]. *)
Theorem w_hd_from_scheme k m type wd d wd' :
  init E k m type wd = (Ok d, wd') ->
  exists scheme,
    scheme_of_name type = Some scheme /\
    ECPyECLibDriver.type d = type /\
    ECPyECLibDriver.k d = k /\
    ECPyECLibDriver.m d = m /\
    w d = spec_w scheme /\
    hd d = Some (spec_hd scheme m) /\
    calls wd' = calls wd ++ [c_init k m (spec_w scheme) type].
Proof.
  intros Hinit.
  destruct (str_in type ec_types) eqn:Hin.
  2:{ by rewrite (init_invalid _ _ _ _ Hin) in Hinit. }
  destruct (init_valid k m type wd Hin) as (a & s' & Ha & Hrun).
  rewrite Hrun in Hinit. destruct a as [what|h]; [done|].
  injection Hinit as <- <-.
  destruct (str_in_ec_types _ Hin) as [-> | [-> | [-> | ->]]];
    eexists; (split; [reflexivity|]); done.
Qed.

(** C7, as amended.  When [encode] or [decode] of the coded driver
    fails, the store of list objects is as it was.  When [reconstruct]
    fails, the store is as it was except for the caller's list of target
    indexes, which is left sorted in ascending order, with the elements
    it had; every other list object is as it was. *)
Theorem failure_and_caller_lists self payloads bytes r wd :
  (forall e wd',
      encode E self bytes wd = (Raise e, wd') -> store wd' = store wd) /\
  (forall e wd',
      decode E self payloads wd = (Raise e, wd') -> store wd' = store wd) /\
  (forall e wd',
      reconstruct E self payloads r wd = (Raise e, wd') ->
      store wd' = alter (merge_sort Z.le) r (store wd) /\
      (forall r', r' <> r -> store wd' !! r' = store wd !! r') /\
      (forall targets,
          store wd !! r = Some targets ->
          store wd' !! r = Some (merge_sort Z.le targets) /\
          StronglySorted Z.le (merge_sort Z.le targets) /\
          Permutation (merge_sort Z.le targets) targets)).
Proof.
  split; [|split].
  - intros e wd' H. pose proof (proj1 (tidy_encode self bytes wd)) as Hs.
    by rewrite H in Hs.
  - intros e wd' H. pose proof (proj1 (tidy_decode self payloads wd)) as Hs.
    by rewrite H in Hs.
  - intros e wd' H.
    pose proof (proj1 (reconstruct_store self payloads r wd)) as Hs.
    rewrite H in Hs. cbn [snd] in Hs. split; [done|]. split.
    + intros r' Hne. rewrite Hs. by apply list_lookup_alter_ne.
    + intros targets Hr. rewrite Hs, list_lookup_alter_eq, Hr.
      split; [done|]. split; [apply sort_sorted|apply sort_permutation].
Qed.

(** *** The error class *)

Lemma striping_never_driver_error :
  (forall k m, ~ is_driver_error (ECStripingDriver.init k m)) /\
  (forall self bytes, ~ is_driver_error (ECStripingDriver.encode self bytes)) /\
  (forall self payloads,
      ~ is_driver_error (ECStripingDriver.decode self payloads)) /\
  (forall self payloads missing,
      ~ is_driver_error (ECStripingDriver.reconstruct self payloads missing)).
Proof.
  repeat split.
  - intros k m [msg H]. unfold ECStripingDriver.init in H.
    by destruct (negb (m =? 0)).
  - intros self bytes [msg H]. unfold ECStripingDriver.encode in H.
    destruct (ECStripingDriver.k self =? 0); [done|].
    by destruct (ECStripingDriver.encode_loop _ _ _ _ _).
  - intros self payloads [msg H]. unfold ECStripingDriver.decode in H.
    by destruct (negb (len payloads =? ECStripingDriver.k self)).
  - intros self payloads missing [msg H].
    unfold ECStripingDriver.reconstruct in H.
    by destruct (negb (len payloads =? ECStripingDriver.k self)).
Qed.

(** C9.  The name [ECDriverError] is bound neither in the module nor in
    the builtins.  So every branch that runs [raise ECDriverError(...)]
    fails with [NameError] for that name: the coded driver constructed
    with a type name outside [ec_types], a fault of the fast path of its
    [decode], the striping driver constructed with [m <> 0], and its
    [decode] and [reconstruct] on a number of fragments other than [k].
    And no operation of the two drivers ends in an error of the class
    [ECDriverError]. *)
Theorem ECDriverError_unbound :
  resolves "ECDriverError" = false /\
  (forall k m type wd,
      str_in type ec_types = false ->
      init E k m type wd = (Raise (NameError "ECDriverError"), wd)) /\
  (forall self payloads wd what s1,
      pyeclib_c_fragments_to_string E (handle self) payloads (eng wd)
      = (inl what, s1) ->
      fst (decode E self payloads wd) = Raise (NameError "ECDriverError")) /\
  (forall k m,
      m <> 0 ->
      ECStripingDriver.init k m = Raise (NameError "ECDriverError")) /\
  (forall self payloads,
      len payloads <> ECStripingDriver.k self ->
      ECStripingDriver.decode self payloads
      = Raise (NameError "ECDriverError")) /\
  (forall self payloads missing,
      len payloads <> ECStripingDriver.k self ->
      ECStripingDriver.reconstruct self payloads missing
      = Raise (NameError "ECDriverError")) /\
  (forall k m type wd, ~ is_driver_error (fst (init E k m type wd))) /\
  (forall self bytes wd, ~ is_driver_error (fst (encode E self bytes wd))) /\
  (forall self payloads wd,
      ~ is_driver_error (fst (decode E self payloads wd))) /\
  (forall self payloads r wd,
      ~ is_driver_error (fst (reconstruct E self payloads r wd))) /\
  (forall self missing wd,
      ~ is_driver_error (fst (fragments_needed E self missing wd))) /\
  (forall k m, ~ is_driver_error (ECStripingDriver.init k m)) /\
  (forall self bytes, ~ is_driver_error (ECStripingDriver.encode self bytes)) /\
  (forall self payloads,
      ~ is_driver_error (ECStripingDriver.decode self payloads)) /\
  (forall self payloads missing,
      ~ is_driver_error (ECStripingDriver.reconstruct self payloads missing)).
Proof.
  split; [reflexivity|].
  split; [apply init_invalid|].
  split.
  { intros self payloads wd what s1 H.
    by rewrite (decode_fast_fault _ _ _ _ _ H). }
  split.
  { intros k m Hm. unfold ECStripingDriver.init.
    by destruct (m =? 0) eqn:Heq; [lia|]. }
  split.
  { intros self payloads Hk. by rewrite decode_wrong_count. }
  split.
  { intros self payloads missing Hk. unfold ECStripingDriver.reconstruct.
    by destruct (len payloads =? ECStripingDriver.k self) eqn:Heq; [lia|]. }
  split; [intros; apply tidy_init|].
  split; [intros; apply tidy_encode|].
  split; [intros; apply tidy_decode|].
  split; [intros; apply reconstruct_store|].
  split; [intros; apply tidy_fragments_needed|].
  apply striping_never_driver_error.
Qed.

End Coded.

(** ** The drivers on the stub engine *)

Section Runs.
Import ECPyECLibDriver.

(** A run of [reconstruct] for the targets [[3; 0; 2]]: the reconstruct
    calls are for 0, 2 and 3 in that order, and three fragments come back. *)
Lemma reconstruct_ascending_witness :
  exists fragments wd',
    reconstruct (stub_engine [b "d0"] (inr None) true) stub_driver
      [b "p0"] 0%nat (fresh_world [[3; 0; 2]]) = (Ok fragments, wd') /\
    reconstructed_indexes (calls wd') = [0; 2; 3] /\
    length fragments = 3%nat.
Proof.
  destruct (reconstruct_ascending (stub_engine [b "d0"] (inr None) true)
              stub_driver [b "p0"] 0%nat [3; 0; 2]
              (fresh_world [[3; 0; 2]]))
    as (fragments & wd' & new & Hrun & _ & _ & Hc & _ & _ & Hidx & _
        & Hlen & _).
  - reflexivity.
  - intros s. by eexists _, _, _, _, _.
  - intros d p mi index n s. by eexists _, _.
  - exists fragments, wd'. split; [exact Hrun|].
    split; [|exact Hlen]. rewrite Hc. exact Hidx.
Defined.

(** C4, the claim as stated fails: over an engine whose [init] accepts
    them, the coded driver is constructed for [flat_xor_3] with
    [(k, m) = (8, 4)], which is not among [ec_valid_xor_params]. *)
Lemma xor_8_4_is_constructed :
  str_in "8_4_3" ec_valid_xor_params = false /\
  exists d wd',
    init (stub_engine [] (inr None) true) 8 4 "flat_xor_3" (fresh_world [])
    = (Ok d, wd') /\
    k d = 8 /\ m d = 4 /\ type d = "flat_xor_3"%string.
Proof. split; [reflexivity|]. by eexists _, _. Qed.

(** Three constructions: the striping driver with [m = 1], the coded
    driver with the type name [raid5], and the coded driver for
    [flat_xor_4] with [(k, m) = (8, 4)]. *)
Lemma construction_checks_witness :
  (exists e, ECStripingDriver.init 3 1 = Raise e) /\
  (exists e,
      init (stub_engine [] (inr None) true) 3 1 "raid5" (fresh_world [])
      = (Raise e, fresh_world [])) /\
  (exists d wd',
      init (stub_engine [] (inr None) true) 8 4 "flat_xor_4" (fresh_world [])
      = (Ok d, wd') /\ w d = 32).
Proof.
  pose proof (construction_checks (stub_engine [] (inr None) true)
                3 1 "raid5" (fresh_world [])) as (H1 & H2 & _).
  pose proof (construction_checks (stub_engine [] (inr None) true)
                8 4 "flat_xor_4" (fresh_world [])) as (_ & _ & H3).
  split; [apply H1; lia|]. split; [apply H2; reflexivity|].
  destruct H3 as (a & s' & Ha & Hrun); [by right|].
  injection Ha as <- <-. by eexists _, _.
Defined.

(** C5 (defect of the code).  Three runs of [decode] of the coded
    driver.  A fault of the fast path ends in [NameError] for the
    unbound name [ECDriverError].  On the repair path, a fault of the
    engine's [decode] and the [IndexError] of the first-element access
    reach the caller as they are, wrapped in nothing. *)
Theorem coded_decode_faults :
  fst (decode (stub_engine [b "d0"] (inl "bad fragments"%string) true)
         stub_driver [b "p0"] (fresh_world []))
  = Raise (NameError "ECDriverError") /\
  fst (decode (stub_engine [b "d0"] (inr None) false)
         stub_driver [b "p0"] (fresh_world []))
  = Raise (EngineFault "decode failed") /\
  fst (decode (stub_engine [] (inr None) true)
         stub_driver [b "p0"] (fresh_world []))
  = Raise IndexError.
Proof. repeat split. Qed.

(** C7, the claim as stated fails: [reconstruct] for the targets
    [[2; 0]] fails, over an engine whose partition has no data fragment,
    and leaves the caller's list as [[0; 2]]. *)
Lemma reconstruct_failure_sorts_caller_list :
  exists e wd',
    reconstruct (stub_engine [] (inr None) true) stub_driver [b "p0"]
      0%nat (fresh_world [[2; 0]]) = (Raise e, wd') /\
    store (fresh_world [[2; 0]]) !! 0%nat = Some [2; 0] /\
    store wd' !! 0%nat = Some [0; 2] /\
    store wd' <> store (fresh_world [[2; 0]]).
Proof. eexists _, _. repeat split. by intros [=]. Qed.

(** A failed [reconstruct] with two list objects in the store: the
    targets [[2; 0]] are left as [[0; 2]], the other list is untouched. *)
Lemma failure_and_caller_lists_witness :
  exists wd',
    reconstruct (stub_engine [] (inr None) true) stub_driver [b "p0"]
      0%nat (fresh_world [[2; 0]; [5; 1]]) = (Raise IndexError, wd') /\
    store wd' !! 0%nat = Some [0; 2] /\
    store wd' !! 1%nat = Some [5; 1].
Proof.
  eexists. split; [reflexivity|].
  pose proof (failure_and_caller_lists (stub_engine [] (inr None) true)
                stub_driver [b "p0"] (b "x") 0%nat
                (fresh_world [[2; 0]; [5; 1]])) as (_ & _ & H).
  destruct (H IndexError _ eq_refl) as (_ & Hother & Hsorted).
  split.
  - apply (Hsorted [2; 0]). reflexivity.
  - rewrite (Hother 1%nat); [reflexivity|lia].
Defined.

(** The construction for [rs_vand] with [m = 2]: [w = 16], [hd = 3]. *)
Lemma w_hd_from_scheme_witness :
  exists d wd',
    init (stub_engine [] (inr None) true) 4 2 "rs_vand" (fresh_world [])
    = (Ok d, wd') /\
    w d = 16 /\ hd d = Some 3.
Proof.
  eexists _, _. split; [reflexivity|].
  destruct (w_hd_from_scheme (stub_engine [] (inr None) true)
              4 2 "rs_vand" (fresh_world []) _ _ eq_refl)
    as (scheme & Hs & _ & _ & _ & Hw & Hhd & _).
  injection Hs as <-. split; [exact Hw|exact Hhd].
Defined.

(** Each of the failure branches, taken once. *)
Lemma ECDriverError_unbound_witness :
  init (stub_engine [] (inr None) true) 3 1 "raid5" (fresh_world [])
  = (Raise (NameError "ECDriverError"), fresh_world []) /\
  fst (decode (stub_engine [] (inl "bad fragments"%string) true)
         stub_driver [b "p0"] (fresh_world []))
  = Raise (NameError "ECDriverError") /\
  ECStripingDriver.init 3 1 = Raise (NameError "ECDriverError") /\
  ECStripingDriver.decode
    {| ECStripingDriver.k := 3; ECStripingDriver.m := 0 |} [b "hell"]
  = Raise (NameError "ECDriverError") /\
  ECStripingDriver.reconstruct
    {| ECStripingDriver.k := 3; ECStripingDriver.m := 0 |} [b "hell"] [1; 2]
  = Raise (NameError "ECDriverError").
Proof.
  pose proof (ECDriverError_unbound
                (stub_engine [] (inl "bad fragments"%string) true))
    as (_ & _ & Hdecode & Hsinit & Hsdecode & Hsrec & _).
  pose proof (ECDriverError_unbound (stub_engine [] (inr None) true))
    as (_ & Hinit & _).
  split; [apply (Hinit 3 1 "raid5"%string (fresh_world [])); reflexivity|].
  split; [apply (Hdecode stub_driver [b "p0"] (fresh_world [])
                   "bad fragments"%string 1%nat); reflexivity|].
  split; [apply (Hsinit 3 1); lia|].
  split; [apply (Hsdecode {| ECStripingDriver.k := 3;
                             ECStripingDriver.m := 0 |} [b "hell"]);
          vm_compute; lia|].
  apply (Hsrec {| ECStripingDriver.k := 3; ECStripingDriver.m := 0 |}
           [b "hell"] [1; 2]); vm_compute; lia.
Defined.

(** [decode] and [reconstruct] on a partition without data fragments,
    [decode] on a partition whose first data fragment has two bytes, and
    [reconstruct] for the targets [[4; 1]] on such a partition. *)
Lemma first_data_fragment_length_witness :
  decode (stub_engine [] (inr None) true) stub_driver [b "p0"]
    (fresh_world [])
  = (Raise IndexError,
     {| eng := 2%nat;
        calls := [c_fragments_to_string 7 [b "p0"];
                  c_get_fragment_partition 7 [b "p0"]];
        store := [] |}) /\
  (exists res wd' more,
      decode (stub_engine [b "d0"; b "d"] (inr None) true) stub_driver
        [b "p0"] (fresh_world []) = (res, wd') /\
      calls wd'
      = [c_fragments_to_string 7 [b "p0"];
         c_get_fragment_partition 7 [b "p0"];
         c_decode 7 [b "d0"; b "d"] [b "p0"] [] 2] ++ more) /\
  (exists wd',
      reconstruct (stub_engine [] (inr None) true) stub_driver [b "p0"]
        0%nat (fresh_world [[4; 1]]) = (Raise IndexError, wd') /\
      calls wd' = [c_get_fragment_partition 7 [b "p0"]]) /\
  (exists res wd' more,
      reconstruct (stub_engine [b "d0"; b "d"] (inr None) true) stub_driver
        [b "p0"] 0%nat (fresh_world [[4; 1]]) = (res, wd') /\
      calls wd'
      = [c_get_fragment_partition 7 [b "p0"];
         c_reconstruct 7 [b "d0"; b "d"] [b "p0"] [] 1 2] ++ more) /\
  (exists res wd',
      reconstruct (stub_engine [b "d0"; b "d"] (inr None) true) stub_driver
        [b "p0"] 0%nat (fresh_world [[4; 1]]) = (res, wd') /\
      iterations (stub_engine [b "d0"; b "d"] (inr None) true) stub_driver
        [b "p0"] 0%nat (calls wd') (failure_of res)).
Proof.
  pose proof (first_data_fragment_length (stub_engine [] (inr None) true)
                stub_driver [b "p0"] (fresh_world []))
    as (H1 & _).
  pose proof (first_data_fragment_length
                (stub_engine [b "d0"; b "d"] (inr None) true)
                stub_driver [b "p0"] (fresh_world []))
    as (_ & H2 & _).
  pose proof (first_data_fragment_length (stub_engine [] (inr None) true)
                stub_driver [b "p0"] (fresh_world [[4; 1]]))
    as (_ & _ & _ & _ & H5 & _).
  pose proof (first_data_fragment_length
                (stub_engine [b "d0"; b "d"] (inr None) true)
                stub_driver [b "p0"] (fresh_world [[4; 1]]))
    as (_ & _ & _ & _ & _ & H6 & H7).
  split; [|split; [|split; [|split]]].
  - apply (H1 1%nat [b "p0"] [] 2%nat); reflexivity.
  - apply (H2 1%nat (b "d0") [b "d"] [b "p0"] [] 2%nat); reflexivity.
  - apply (H5 0%nat [4; 1] [b "p0"] [] 1%nat); [reflexivity|done|reflexivity].
  - destruct (H6 0%nat [4; 1] (b "d0") [b "d"] [b "p0"] [] 1%nat)
      as (index & rest & res & wd' & more & Hs & Hrun & Hc);
      [reflexivity|done|reflexivity|].
    injection Hs as <- <-. by exists res, wd', more.
  - destruct (H7 0%nat [4; 1] eq_refl)
      as (res & wd' & new & Hrun & Hc & Hit & _).
    exists res, wd'. split; [exact Hrun|]. rewrite Hc. exact Hit.
Defined.

End Runs.

(** * Further properties *)

(** ** ECStripingDriver: what [encode] returns *)

Section StripingShape.
Import ECStripingDriver.

(** The ceiling brackets the quotient. *)
Lemma ceil_div_bounds n d :
  1 <= d ->
  d * (ceil_div n d - 1) < n <= d * ceil_div n d.
Proof.
  intros Hd. unfold ceil_div.
  pose proof (Z.div_mod (- n) d ltac:(lia)) as Hdm.
  pose proof (Z.mod_pos_bound (- n) d ltac:(lia)) as Hm.
  nia.
Qed.

Lemma ceil_div_nonneg n d : 0 <= n -> 1 <= d -> 0 <= ceil_div n d.
Proof. intros Hn Hd. pose proof (ceil_div_bounds n d Hd). nia. Qed.

Lemma ceil_div_1 n : ceil_div n 1 = n.
Proof. unfold ceil_div. rewrite Z.div_1_r. lia. Qed.

Lemma len_nonneg {A} (l : list A) : 0 <= len l.
Proof. unfold len. lia. Qed.

Lemma slice_index_range n i : 0 <= n -> 0 <= slice_index n i <= n.
Proof.
  intros Hn. unfold slice_index. destruct (Z.ltb_spec i 0); lia.
Qed.

(** The length of a slice. *)
Lemma py_slice_len {A} (s : list A) start stop :
  len (py_slice s start stop)
  = Z.max 0 (slice_index (len s) stop - slice_index (len s) start).
Proof.
  pose proof (slice_index_range (len s) start (len_nonneg s)) as Hlo.
  pose proof (slice_index_range (len s) stop (len_nonneg s)) as Hhi.
  unfold py_slice. cbv zeta.
  generalize dependent (slice_index (len s) start).
  generalize dependent (slice_index (len s) stop).
  intros hi Hhi lo Hlo.
  unfold len in *. rewrite length_take, length_drop. lia.
Qed.

(** [s[0:stop]] with [stop >= 0] is the first [stop] elements. *)
Lemma py_slice_take {A} (s : list A) stop :
  0 <= stop -> py_slice s 0 stop = take (Z.to_nat stop) s.
Proof.
  intros Hs. pose proof (len_nonneg s) as HL.
  unfold py_slice, slice_index. change (0 <? 0) with false. cbv iota zeta.
  destruct (Z.ltb_spec stop 0); [lia|].
  rewrite (Z.min_l 0 (len s)) by lia.
  change (Z.to_nat 0) with O. rewrite drop_0, Z.sub_0_r.
  destruct (decide (stop <= len s)) as [Hle|Hgt].
  - by rewrite Z.min_l by lia.
  - rewrite Z.min_r by lia. unfold len in *.
    rewrite !take_ge; [done|lia|lia].
Qed.

Lemma total_len_app l1 l2 :
  total_len (l1 ++ l2) = total_len l1 + total_len l2.
Proof.
  unfold total_len. induction l1 as [|x l1 IH]; cbn; [done|].
  cbn in IH. rewrite IH. lia.
Qed.

Lemma total_len_nonneg l : 0 <= total_len l.
Proof.
  unfold total_len. induction l as [|x l IH]; cbn; [done|].
  pose proof (len_nonneg x). cbn in IH. lia.
Qed.

Lemma total_len_replicate_nil n : total_len (replicate n []) = 0.
Proof. unfold total_len. induction n; cbn; [done|]. by rewrite IHn. Qed.

Lemma total_len_concat l : len (concat l) = total_len l.
Proof.
  unfold total_len, len. induction l as [|x l IH]; cbn; [done|].
  rewrite length_app. lia.
Qed.

Lemma concat_replicate_nil {A} n : concat (replicate n (@nil A)) = [].
Proof. induction n; cbn; done. Qed.

(** From the second turn on, the loop appends empty fragments. *)
Lemma map_slices_empty (bytes : buffer) fragment_size j n :
  0 <= fragment_size -> (1 <= j)%nat ->
  map (fun i => py_slice bytes (Z.of_nat i * fragment_size) fragment_size)
    (seq j n)
  = replicate n [].
Proof.
  intros Hfs. revert j. induction n as [|n IH]; intros j Hj; [done|].
  cbn [seq map replicate]. f_equal.
  - apply py_slice_empty. nia.
  - apply IH. lia.
Qed.

(** The fragments for [k >= 2], in closed form. *)
Lemma encode_two_or_more self bytes :
  2 <= k self ->
  let fragment_size := ceil_div (len bytes) (k self) in
  encode self bytes
  = Ok (take (Z.to_nat fragment_size) bytes
        :: replicate (Z.to_nat (k self - 2)) []
        ++ [py_slice bytes ((k self - 1) * fragment_size)
              (len bytes - (fragment_size * k self - 1))]).
Proof.
  intros Hk fragment_size.
  pose proof (ceil_div_nonneg (len bytes) (k self) (len_nonneg bytes)
                ltac:(lia)) as Hfs.
  rewrite encode_closed by lia. fold fragment_size.
  replace (Z.to_nat (k self - 1)) with (S (Z.to_nat (k self - 2))) by lia.
  cbn [seq map app].
  rewrite (map_slices_empty bytes fragment_size 1) by (done || lia).
  rewrite Z.mul_0_l, py_slice_take by done.
  replace (Z.of_nat (S (Z.to_nat (k self - 2)))) with (k self - 1) by lia.
  reflexivity.
Qed.

(** With two fragments or more, [encode] returns [k] fragments: the first
    is the first [ceil(L/k)] bytes of the buffer, every fragment between
    the first and the last is empty, and the last is the slice
    [bytes[(k-1)*fragment_size : L - (fragment_size*k - 1)]]. *)
Theorem encode_shape self bytes :
  2 <= k self ->
  exists fragments,
    encode self bytes = Ok fragments /\
    len fragments = k self /\
    fragments !! 0%nat
    = Some (take (Z.to_nat (ceil_div (len bytes) (k self))) bytes) /\
    (forall i, (1 <= i)%nat -> Z.of_nat i < k self - 1 ->
               fragments !! i = Some []) /\
    fragments !! Z.to_nat (k self - 1)
    = Some (py_slice bytes ((k self - 1) * ceil_div (len bytes) (k self))
              (len bytes - (ceil_div (len bytes) (k self) * k self - 1))).
Proof.
  intros Hk. eexists. split; [by apply encode_two_or_more|].
  split; [|split; [done|split]].
  - unfold len. cbn [length].
    rewrite length_app, length_replicate. cbn. lia.
  - intros [|i] Hi Hlt; [lia|]. rewrite lookup_cons_ne_0 by lia.
    rewrite lookup_app_l by (rewrite length_replicate; lia).
    apply lookup_replicate_2. lia.
  - replace (Z.to_nat (k self - 1)) with (S (Z.to_nat (k self - 2))) by lia.
    rewrite lookup_cons_ne_0 by lia. cbn [Nat.pred].
    rewrite lookup_app_r by (rewrite length_replicate; lia).
    by rewrite length_replicate, Nat.sub_diag.
Qed.

(** The fragment for [k = 1]. *)
Lemma encode_one self bytes :
  k self = 1 -> encode self bytes = Ok [take 1 bytes].
Proof.
  intros Hk. rewrite encode_closed by lia. rewrite Hk.
  cbn [Z.sub Z.to_nat Z.opp Z.add Z.pos_sub seq map app Z.of_nat].
  rewrite ceil_div_1, Z.mul_0_l.
  replace (len bytes - (len bytes * 1 - 1)) with 1 by lia.
  by rewrite py_slice_take.
Qed.

(** With one fragment, [encode] returns the first byte of the buffer and
    nothing else, and [decode] of that fragment returns that byte. *)
Theorem encode_single_fragment self bytes :
  k self = 1 ->
  encode self bytes = Ok [take 1 bytes] /\
  decode self [take 1 bytes] = Ok (take 1 bytes).
Proof.
  intros Hk. split; [by apply encode_one|].
  rewrite decode_exact by (by rewrite Hk). cbn. by rewrite app_nil_r.
Qed.


(** The facts on [k], [L], [ceil(L/k)] and their product that the
    lengths of the fragments depend on. *)
Lemma stripe_arith K L :
  2 <= K -> 1 <= L ->
  let F := ceil_div L K in
  1 <= F /\ L <= K * F /\ K * F - K < L /\ 2 * F <= K * F /\
  2 * F - 2 <= K * F - K /\ (K - 1) * F = K * F - F.
Proof.
  intros HK HL F.
  pose proof (ceil_div_bounds L K ltac:(lia)) as HB. fold F in HB.
  pose proof (ceil_div_pos L K HL ltac:(lia)) as HF. fold F in HF.
  repeat split; nia.
Qed.

(** The last fragment is empty when the buffer has at most one byte. *)
Lemma last_fragment_small self (bytes : buffer) :
  2 <= k self -> len bytes <= 1 ->
  py_slice bytes ((k self - 1) * ceil_div (len bytes) (k self))
    (len bytes - (ceil_div (len bytes) (k self) * k self - 1)) = [].
Proof.
  intros Hk HL. apply nil_length_inv.
  match goal with |- length ?l = _ => pose proof (py_slice_len bytes
    ((k self - 1) * ceil_div (len bytes) (k self))
    (len bytes - (ceil_div (len bytes) (k self) * k self - 1))) as Hlen end.
  pose proof (len_nonneg bytes) as HL0.
  pose proof (slice_index_range (len bytes)
    (len bytes - (ceil_div (len bytes) (k self) * k self - 1)) HL0) as Hhi.
  assert (slice_index (len bytes)
            ((k self - 1) * ceil_div (len bytes) (k self)) = len bytes)
    as Hlo.
  { unfold slice_index.
    destruct (decide (len bytes = 0)) as [H0|H1].
    - rewrite H0.
      match goal with
      | |- context [?x <? 0] => destruct (Z.ltb_spec x 0)
      end; lia.
    - destruct (stripe_arith (k self) (len bytes) Hk ltac:(lia))
        as (? & ? & ? & ? & ? & ->).
      destruct (Z.ltb_spec (k self * ceil_div (len bytes) (k self)
                            - ceil_div (len bytes) (k self)) 0); lia. }
  rewrite Hlo in Hlen. unfold len in *. lia.
Qed.

(** The lengths of the fragments of a buffer of two bytes or more. *)
Lemma encode_total_len_lt self bytes :
  1 <= k self -> 2 <= len bytes ->
  exists fragments,
    encode self bytes = Ok fragments /\ total_len fragments < len bytes.
Proof.
  intros Hk HL.
  destruct (decide (k self = 1)) as [H1|H1].
  - eexists. split; [by apply encode_one|].
    unfold total_len. cbn. unfold len in *. rewrite length_take. lia.
  - assert (2 <= k self) as Hk2 by lia.
    eexists. split; [by apply encode_two_or_more|].
    change (?x :: ?l ++ ?y) with ([x] ++ l ++ y).
    rewrite !total_len_app, total_len_replicate_nil.
    unfold total_len at 1 2. cbn [map fold_right].
    rewrite py_slice_len.
    destruct (stripe_arith (k self) (len bytes) Hk2 ltac:(lia))
      as (HF & HP1 & HP2 & HP3 & HP4 & ->).
    replace (ceil_div (len bytes) (k self) * k self)
      with (k self * ceil_div (len bytes) (k self)) by lia.
    generalize dependent (k self * ceil_div (len bytes) (k self)).
    generalize dependent (ceil_div (len bytes) (k self)).
    intros F HF P HP1 HP2 HP3 HP4.
    unfold slice_index.
    destruct (Z.ltb_spec (P - F) 0); [lia|].
    assert (len (take (Z.to_nat F) bytes) = Z.min F (len bytes)) as ->.
    { unfold len. rewrite length_take. lia. }
    destruct (Z.ltb_spec (len bytes - (P - 1)) 0); lia.
Qed.

(** [encode] loses bytes on every buffer of two bytes or more, but not
    all of them: the lengths of the fragments sum to at least 1 and to
    less than the length of the buffer. *)
Theorem encode_loses_bytes self bytes :
  1 <= k self -> 2 <= len bytes ->
  exists fragments,
    encode self bytes = Ok fragments /\
    1 <= total_len fragments < len bytes.
Proof.
  intros Hk HL.
  destruct (encode_total_len_lt self bytes Hk HL) as (fragments & Henc & Hlt).
  exists fragments. split; [done|]. split; [|done].
  destruct (decide (k self = 1)) as [H1|H1].
  - rewrite (encode_one self bytes H1) in Henc. injection Henc as <-.
    unfold total_len, len in *. cbn. rewrite length_take. lia.
  - rewrite (encode_two_or_more self bytes ltac:(lia)) in Henc.
    injection Henc as <-.
    pose proof (ceil_div_pos (len bytes) (k self) ltac:(lia) Hk) as HF.
    change (?x :: ?l) with ([x] ++ l). rewrite total_len_app.
    pose proof (total_len_nonneg
                  (replicate (Z.to_nat (k self - 2)) [] ++
                   [py_slice bytes
                      ((k self - 1) * ceil_div (len bytes) (k self))
                      (len bytes
                       - (ceil_div (len bytes) (k self) * k self - 1))])).
    unfold total_len at 1. cbn [map fold_right].
    unfold len in *. rewrite length_take. lia.
Qed.

(** The round trip of the striping driver, for [k >= 1]: [decode] accepts
    the fragments [encode] returns, and gives back the buffer exactly when
    the buffer has at most one byte. *)
Theorem striping_roundtrip_iff self bytes :
  1 <= k self ->
  exists fragments out,
    encode self bytes = Ok fragments /\
    decode self fragments = Ok out /\
    (out = bytes <-> len bytes <= 1).
Proof.
  intros Hk.
  destruct (encode_count self bytes Hk) as (fragments & Henc & Hcount).
  exists fragments, (concat fragments).
  split; [done|]. split; [by apply decode_exact|].
  split.
  - intros Hout.
    destruct (decide (len bytes <= 1)) as [|Hbig]; [done|exfalso].
    destruct (encode_total_len_lt self bytes Hk ltac:(lia))
      as (fragments' & Henc' & Hlt).
    rewrite Henc in Henc'. injection Henc' as <-.
    rewrite <- total_len_concat, Hout in Hlt. lia.
  - intros HL.
    assert (take (Z.to_nat (ceil_div (len bytes) (k self))) bytes = bytes)
      as Htake.
    { apply take_ge.
      destruct (decide (len bytes = 0)) as [H0|H0]; unfold len in *; [lia|].
      pose proof (ceil_div_pos (Z.of_nat (length bytes)) (k self)
                    ltac:(lia) Hk). lia. }
    destruct (decide (k self = 1)) as [H1|H1].
    + rewrite (encode_one self bytes H1) in Henc.
      injection Henc as <-. cbn. rewrite app_nil_r.
      apply take_ge. unfold len in HL. lia.
    + rewrite (encode_two_or_more self bytes ltac:(lia)) in Henc.
      injection Henc as <-.
      rewrite last_fragment_small by lia. cbn [concat].
      by rewrite concat_app, concat_replicate_nil, Htake, !app_nil_r.
Qed.

(** What [decode] returns for the fragments of [encode] is always a
    subsequence of the buffer: bytes may be lost, none is added, moved or
    repeated. *)
Theorem striping_roundtrip_sublist self bytes :
  1 <= k self ->
  exists fragments out,
    encode self bytes = Ok fragments /\
    decode self fragments = Ok out /\
    out `sublist_of` bytes.
Proof.
  intros Hk.
  destruct (encode_count self bytes Hk) as (fragments & Henc & Hcount).
  exists fragments, (concat fragments).
  split; [done|]. split; [by apply decode_exact|].
  destruct (decide (k self = 1)) as [H1|H1].
  - rewrite (encode_one self bytes H1) in Henc.
    injection Henc as <-. cbn. rewrite app_nil_r. apply sublist_take.
  - assert (2 <= k self) as Hk2 by lia.
    rewrite (encode_two_or_more self bytes Hk2) in Henc. injection Henc as <-.
    cbn [concat]. rewrite concat_app, concat_replicate_nil. cbn.
    rewrite app_nil_r.
    set (F := ceil_div (len bytes) (k self)).
    trans (take (Z.to_nat F) bytes ++ drop (Z.to_nat F) bytes);
      [|by rewrite take_drop].
    apply sublist_app; [done|].
    unfold py_slice.
    set (lo := slice_index (len bytes) ((k self - 1) * F)).
    set (n := Z.to_nat (_ - lo)).
    assert (0 <= F) as HF
      by (apply ceil_div_nonneg; [apply len_nonneg|lia]).
    assert (Z.min F (len bytes) <= lo) as Hlo.
    { unfold lo, slice_index.
      destruct (Z.ltb_spec ((k self - 1) * F) 0); nia. }
    destruct (decide (Z.to_nat F <= Z.to_nat lo)%nat) as [Hle|Hgt].
    + replace (Z.to_nat lo)
        with (Z.to_nat F + (Z.to_nat lo - Z.to_nat F))%nat by lia.
      rewrite <- drop_drop.
      etrans; [apply sublist_take|apply sublist_drop].
    + rewrite (drop_ge bytes (Z.to_nat lo)) by (unfold len in *; lia).
      rewrite take_nil. apply sublist_nil_l.
Qed.

(** [decode] returns exactly when it is given [k] payloads, and then the
    concatenation of the payloads in the order given. *)
Theorem striping_decode_iff self payloads out :
  decode self payloads = Ok out
  <-> len payloads = k self /\ out = concat payloads.
Proof.
  split.
  - intros H. destruct (decide (len payloads = k self)) as [Hk|Hk].
    + rewrite (decode_exact _ _ Hk) in H. by injection H as <-.
    + by rewrite (decode_wrong_count _ _ Hk) in H.
  - intros [Hk ->]. by apply decode_exact.
Qed.

(** [reconstruct] and [decode] accept the same lists of fragments:
    [reconstruct] returns exactly when [decode] does, it returns the list
    it was given, whatever the missing indexes, and that list decodes to
    its concatenation. *)
Theorem striping_reconstruct_decode self payloads missing :
  ((exists rebuilt, reconstruct self payloads missing = Ok rebuilt)
   <-> (exists out, decode self payloads = Ok out)) /\
  (forall rebuilt,
      reconstruct self payloads missing = Ok rebuilt ->
      rebuilt = payloads /\ decode self rebuilt = Ok (concat payloads)).
Proof.
  assert (forall rebuilt,
             reconstruct self payloads missing = Ok rebuilt ->
             rebuilt = payloads /\ len payloads = k self) as Hrec.
  { intros rebuilt H. unfold reconstruct in H.
    destruct (Z.eqb_spec (len payloads) (k self)) as [Hk|Hk]; [|done].
    by injection H as <-. }
  split; [split|].
  - intros [rebuilt H]. destruct (Hrec _ H) as [_ Hk].
    eexists. by apply decode_exact.
  - intros [out H].
    destruct (decide (len payloads = k self)) as [Hk|Hk];
      [|by rewrite (decode_wrong_count _ _ Hk) in H].
    exists payloads. unfold reconstruct.
    by destruct (Z.eqb_spec (len payloads) (k self)).
  - intros rebuilt H. destruct (Hrec _ H) as [-> Hk].
    split; [done|]. by apply decode_exact.
Qed.

End StripingShape.

(** ** ECPyECLibDriver: outcomes and engine calls *)

Section CodedOutcomes.
Import ECPyECLibDriver.
Context {St Handle : Type} (E : Engine St Handle).

(** The constructor returns exactly when the type name is in [ec_types]
    and the engine's [init], called with the [w] of the chain, returns a
    handle; the driver then holds that handle, and [init] is the only
    call made.  It fails with a fault of the engine exactly when [init]
    raised it: the fault is passed on as it is. *)
Theorem init_outcome k m type wd :
  (forall d wd',
      init E k m type wd = (Ok d, wd') <->
      str_in type ec_types = true /\
      exists s',
        pyeclib_c_init E k m (fst (w_hd m type)) type (eng wd)
        = (inr (handle d), s') /\
        d = {| k := k; m := m; type := type; w := fst (w_hd m type);
               hd := snd (w_hd m type); handle := handle d |} /\
        wd' = {| eng := s';
                 calls := calls wd ++ [c_init k m (fst (w_hd m type)) type];
                 store := store wd |}) /\
  (forall what,
      fst (init E k m type wd) = Raise (EngineFault what) <->
      str_in type ec_types = true /\
      exists s',
        pyeclib_c_init E k m (fst (w_hd m type)) type (eng wd)
        = (inl what, s')).
Proof.
  destruct (str_in type ec_types) eqn:Hin.
  - destruct (init_valid E k m type wd Hin) as (a & s' & Ha & Hrun).
    rewrite Hrun, Ha. split.
    + intros d wd'. split.
      * intros H. destruct a as [what|h]; [done|].
        injection H as <- <-. split; [done|]. by exists s'.
      * intros (_ & s2 & Heq & Hd & ->). injection Heq as -> <-.
        by rewrite Hd.
    + intros what. split.
      * intros H. destruct a as [what'|h]; [|done].
        injection H as <-. split; [done|]. by exists s'.
      * intros (_ & s2 & Heq). by injection Heq as -> <-.
  - rewrite (init_invalid E k m type wd Hin). split.
    + intros d wd'. split; [done|]. by intros [? _].
    + intros what. split; [done|]. by intros [? _].
Qed.

(** The repair path of [decode], when the engine answers: the outcome is
    the answer of the second [fragments_to_string], which is given the
    fragments the engine's [decode] returned.  That answer is returned as
    it is, [None] included, and a fault of it is passed on. *)
Theorem decode_repair_outcome self payloads wd s1 first data_frags
    parity_frags missing_idxs s2 decoded_fragments s3 a s4 :
  pyeclib_c_fragments_to_string E (handle self) payloads (eng wd)
  = (inr None, s1) ->
  pyeclib_c_get_fragment_partition E (handle self) payloads s1
  = (inr (first :: data_frags, parity_frags, missing_idxs), s2) ->
  pyeclib_c_decode E (handle self) (first :: data_frags) parity_frags
    missing_idxs (len first) s2 = (inr decoded_fragments, s3) ->
  pyeclib_c_fragments_to_string E (handle self) decoded_fragments s3
  = (a, s4) ->
  decode E self payloads wd
  = (match a with
     | inl what => Raise (EngineFault what)
     | inr ret_string => Ok ret_string
     end,
     {| eng := s4;
        calls := calls wd
                 ++ [c_fragments_to_string (handle self) payloads;
                     c_get_fragment_partition (handle self) payloads;
                     c_decode (handle self) (first :: data_frags)
                       parity_frags missing_idxs (len first);
                     c_fragments_to_string (handle self) decoded_fragments];
        store := store wd |}).
Proof.
  intros H1 H2 H3 H4.
  rewrite (decode_repair E _ _ _ _ _ _ _ _ _ H1 H2).
  unfold bind, call. cbn [eng calls store]. rewrite H3.
  cbn [eng calls store]. rewrite H4.
  by rewrite <- !app_assoc.
Qed.

(** How [decode] can end, and after how many engine calls.  The first
    call is always [fragments_to_string] on the payloads.  A string comes
    back after one call (fast path) or four (repair path); [None] only
    after four.  The failures are [NameError] for [ECDriverError] after
    one call, [IndexError] after two, and a fault of the engine after
    two, three or four; nothing else. *)
Theorem decode_outcomes self payloads wd :
  exists res wd' new,
    decode E self payloads wd = (res, wd') /\
    calls wd' = calls wd ++ new /\
    head new = Some (c_fragments_to_string (handle self) payloads) /\
    match res with
    | Ok (Some _) => length new = 1%nat \/ length new = 4%nat
    | Ok None => length new = 4%nat
    | Raise (NameError name) =>
        name = "ECDriverError"%string /\ length new = 1%nat
    | Raise IndexError => length new = 2%nat
    | Raise (EngineFault _) => (2 <= length new <= 4)%nat
    | Raise _ => False
    end.
Proof.
  destruct (pyeclib_c_fragments_to_string E (handle self) payloads (eng wd))
    as [[what|[ret_string|]] s1] eqn:H1.
  - rewrite (decode_fast_fault E _ _ _ _ _ H1).
    eexists _, _, [_]. by repeat split.
  - rewrite (decode_fast E _ _ _ _ _ H1).
    eexists _, _, [_]. repeat split. by left.
  - destruct (pyeclib_c_get_fragment_partition E (handle self) payloads s1)
      as [[what|[[[|first data_frags] parity_frags] missing_idxs]] s2] eqn:H2.
    + rewrite (decode_repair_fault_partition E _ _ _ _ _ _ H1 H2).
      eexists _, _, [_; _]. repeat split; cbn; lia.
    + rewrite (decode_no_data E _ _ _ _ _ _ _ H1 H2).
      eexists _, _, [_; _]. by repeat split.
    + destruct (pyeclib_c_decode E (handle self) (first :: data_frags)
                  parity_frags missing_idxs (len first) s2)
        as [[what|decoded_fragments] s3] eqn:H3.
      * rewrite (decode_repair E _ _ _ _ _ _ _ _ _ H1 H2).
        unfold bind, call. cbn [eng calls store]. rewrite H3.
        eexists _, _, [_; _; _].
        split; [done|]. split; [cbn; by rewrite <- !app_assoc|].
        repeat split; cbn; lia.
      * destruct (pyeclib_c_fragments_to_string E (handle self)
                    decoded_fragments s3) as [a s4] eqn:H4.
        rewrite (decode_repair E _ _ _ _ _ _ _ _ _ H1 H2).
        unfold bind, call. cbn [eng calls store]. rewrite H3.
        cbn [eng calls store]. rewrite H4.
        eexists _, _, [_; _; _; _]. split; [done|].
        split; [cbn; by rewrite <- !app_assoc|]. split; [done|].
        destruct a as [what|[ret_string|]]; cbn; [lia|by right|done].
Qed.

(** Run the first engine call of the goal, naming its answer, the next
    state and the equation. *)
Ltac step_call a s H :=
  match goal with
  | |- context [call ?c ?f ?x] =>
      destruct (call_run c f x) as (a & s & H & ->)
  end.

(** One run of the loop, by its outcome.  Every call issued is the
    partition of the caller's payloads or a reconstruct on the driver's
    handle. *)
Lemma reconstruct_loop_anatomy self payloads indexes acc wd :
  exists res wd' new,
    reconstruct_loop E self payloads indexes acc wd = (res, wd') /\
    calls wd' = calls wd ++ new /\
    Forall (fun c =>
              c = c_get_fragment_partition (handle self) payloads \/
              exists data_frags parity_frags missing_idxs index n,
                c = c_reconstruct (handle self) data_frags parity_frags
                      missing_idxs index n) new /\
    match res with
    | Ok fragments =>
        length new = (2 * length indexes)%nat /\
        length fragments = (length acc + length indexes)%nat
    | Raise IndexError =>
        exists i, (i < length indexes)%nat /\ length new = (2 * i + 1)%nat
    | Raise (EngineFault _) =>
        (1 <= length new <= 2 * length indexes)%nat
    | Raise _ => False
    end.
Proof.
  revert acc wd. induction indexes as [|index indexes IH]; intros acc wd.
  - exists (Ok acc), wd, []. cbn. rewrite app_nil_r.
    repeat split; [constructor|lia].
  - cbn [reconstruct_loop]. unfold bind at 1.
    step_call a s1 Ha.
    destruct a as [what|[[[|first data_frags] parity_frags] missing_idxs]].
    + eexists _, _, [_]. split; [done|]. split; [done|].
      split; [constructor; [by left|constructor]|]. cbn. lia.
    + eexists _, _, [_]. split; [done|]. split; [done|].
      split; [constructor; [by left|constructor]|].
      exists 0%nat. cbn. lia.
    + cbn [item0]. unfold bind at 1. unfold ret at 1. unfold bind at 1.
      step_call a s2 Ha2.
      destruct a as [what|reconstructed].
      * eexists _, _, [_; _]. split; [done|].
        split; [cbn; by rewrite <- app_assoc|].
        split; [|cbn; lia].
        constructor; [by left|].
        constructor; [right; by eexists _, _, _, _, _|constructor].
      * match goal with
        | |- context [reconstruct_loop E self payloads indexes ?acc' ?x] =>
            destruct (IH acc' x) as (res & wd' & new & -> & Hc & Hall & Hres)
        end.
        eexists res, wd', (_ :: _ :: new). split; [done|].
        split; [rewrite Hc; cbn; by rewrite <- !app_assoc|].
        split.
        { constructor; [by left|].
          constructor; [right; by eexists _, _, _, _, _|done]. }
        destruct res as [fragments|[name| | |what|msg]]; try done.
        -- rewrite length_app in Hres. cbn in *. lia.
        -- destruct Hres as (i & Hi & Hlen). exists (S i). cbn. lia.
        -- cbn. lia.
Qed.

(** How [reconstruct] can end, and after how many engine calls, for [n]
    targets.  It returns after exactly [2n] calls, with [n] fragments.
    It fails with [IndexError] after an odd number of calls, the last one
    a partition, and with a fault of the engine after at least one call
    and at most [2n]; nothing else.  So a list of targets that is empty
    never fails, and the fragments reconstructed before a failure are
    not returned. *)
Theorem reconstruct_outcomes self payloads r targets wd :
  store wd !! r = Some targets ->
  exists res wd' new,
    reconstruct E self payloads r wd = (res, wd') /\
    calls wd' = calls wd ++ new /\
    match res with
    | Ok fragments =>
        length new = (2 * length targets)%nat /\
        length fragments = length targets
    | Raise IndexError =>
        exists i, (i < length targets)%nat /\ length new = (2 * i + 1)%nat
    | Raise (EngineFault _) =>
        (1 <= length new <= 2 * length targets)%nat
    | Raise _ => False
    end.
Proof.
  intros Hr. rewrite (reconstruct_unfold E _ _ _ _ _ Hr).
  match goal with
  | |- context [reconstruct_loop E self payloads ?l ?acc ?x] =>
      destruct (reconstruct_loop_anatomy self payloads l acc x)
        as (res & wd' & new & -> & Hc & _ & Hres)
  end.
  exists res, wd', new. split; [done|]. split; [done|].
  by rewrite (Permutation_length (sort_permutation targets)) in Hres.
Qed.

(** When the engine answers the partition of the payloads with the same
    three parts in every state, every call of a run that [iterations]
    accepts is that partition or a reconstruct that carries those parts
    and the length of the first data fragment. *)
Lemma iterations_constant_partition self payloads data_frags parity_frags
    missing_idxs :
  (forall s,
      fst (pyeclib_c_get_fragment_partition E (handle self) payloads s)
      = inr (data_frags, parity_frags, missing_idxs)) ->
  forall n cs s failure,
    (length cs <= n)%nat ->
    iterations E self payloads s cs failure ->
    Forall (fun c =>
              c = c_get_fragment_partition (handle self) payloads \/
              exists index first,
                head data_frags = Some first /\
                c = c_reconstruct (handle self) data_frags parity_frags
                      missing_idxs index (len first)) cs.
Proof.
  intros Hconst n. induction n as [|n IH]; intros cs s failure Hlen Hit.
  { destruct cs; [constructor|cbn in Hlen; lia]. }
  destruct cs as [|c1 rest]; [constructor|].
  cbn [iterations] in Hit. destruct Hit as (-> & a & s1 & Ha & Hrest).
  pose proof (Hconst s) as Hs. rewrite Ha in Hs. cbn [fst] in Hs. subst a.
  constructor; [by left|].
  destruct data_frags as [|first data_frags];
    destruct rest as [|c2 rest']; try done; try (by constructor).
  destruct Hrest as (index & a2 & s2 & -> & Ha2 & Hnext).
  constructor; [right; by exists index, first|].
  destruct a2 as [what|reconstructed].
  - destruct Hnext as [-> _]. constructor.
  - apply (IH rest' s2 failure); [cbn in Hlen; lia|done].
Qed.

(** [reconstruct] does not feed a reconstructed fragment back.  In every
    run, each turn opens with the partition of the payloads the caller
    supplied, and the reconstruct call of the turn carries the data
    fragments, the parity fragments and the missing indexes that the
    engine answered to that very partition call, none of the driver's
    own.  So over an engine that answers that partition with the same
    parts in every state, every reconstruct call of the run, for the last
    target as for the first, carries those same parts. *)
Theorem reconstruct_partitions_caller_payloads self payloads r targets wd :
  store wd !! r = Some targets ->
  exists res wd' new,
    reconstruct E self payloads r wd = (res, wd') /\
    calls wd' = calls wd ++ new /\
    iterations E self payloads (eng wd) new (failure_of res) /\
    (forall data_frags parity_frags missing_idxs,
        (forall s,
            fst (pyeclib_c_get_fragment_partition E (handle self)
                   payloads s)
            = inr (data_frags, parity_frags, missing_idxs)) ->
        Forall (fun c =>
                  c = c_get_fragment_partition (handle self) payloads \/
                  exists index first,
                    head data_frags = Some first /\
                    c = c_reconstruct (handle self) data_frags parity_frags
                          missing_idxs index (len first)) new).
Proof.
  intros Hr.
  destruct (reconstruct_iterations E self payloads r targets wd Hr)
    as (res & wd' & new & Hrun & Hc & Hit & _).
  exists res, wd', new. split; [done|]. split; [done|]. split; [done|].
  intros d p mi Hconst.
  by apply (iterations_constant_partition self payloads d p mi Hconst
              (length new) new (eng wd) (failure_of res)).
Qed.

Lemma alter_fixed {A} (f : A -> A) (l : list A) i x :
  l !! i = Some x -> f x = x -> alter f i l = l.
Proof.
  intros Hi Hf. apply list_eq. intros j.
  rewrite list_lookup_alter. case_decide; [subst|done].
  by rewrite Hi; cbn; rewrite Hf.
Qed.

(** With no target, [reconstruct] returns the empty list and leaves the
    world as it was: no engine call, and the caller's list still empty. *)
Theorem reconstruct_no_targets self payloads r wd :
  store wd !! r = Some [] ->
  reconstruct E self payloads r wd = (Ok [], wd).
Proof.
  intros Hr. rewrite (reconstruct_unfold E _ _ _ _ _ Hr).
  change (merge_sort Z.le []) with (@nil Z). cbn [reconstruct_loop].
  unfold ret. f_equal. destruct wd as [s cs st]. cbn in *.
  f_equal. by apply alter_fixed with [].
Qed.

(** Two rearrangements of the same targets sort to the same list. *)
Lemma sort_permutation_eq (l1 l2 : list Z) :
  Permutation l1 l2 -> merge_sort Z.le l1 = merge_sort Z.le l2.
Proof.
  intros HP. apply (StronglySorted_unique Z.le); try apply sort_sorted.
  by rewrite !sort_permutation.
Qed.

(** The order in which the caller lists the targets does not matter:
    from the same world, two lists that are rearrangements of each other
    give the same outcome, the same engine calls and the same final
    store. *)
Theorem reconstruct_order_insensitive self payloads r targets1 targets2 wd :
  Permutation targets1 targets2 ->
  store wd !! r = Some targets1 ->
  reconstruct E self payloads r
    {| eng := eng wd; calls := calls wd;
       store := <[r := targets2]> (store wd) |}
  = reconstruct E self payloads r wd.
Proof.
  intros HP Hr.
  assert (r < length (store wd))%nat as Hlt by by eapply lookup_lt_Some.
  rewrite (reconstruct_unfold E _ _ _ targets1 wd Hr).
  rewrite (reconstruct_unfold E _ _ _ targets2);
    [|cbn; by rewrite list_lookup_insert_eq].
  cbn [eng calls store]. rewrite (sort_permutation_eq _ _ HP).
  do 2 f_equal. apply list_eq. intros j.
  rewrite !list_lookup_alter. case_decide; [subst j|].
  - rewrite list_lookup_insert_eq, Hr by done. cbn.
    by rewrite (sort_permutation_eq _ _ HP).
  - by rewrite list_lookup_insert_ne.
Qed.

End CodedOutcomes.

(** ** Runs of the further properties *)

Section MoreRuns.
Import ECPyECLibDriver.

(** [encode] of eleven bytes into three fragments. *)
Lemma encode_shape_witness :
  exists fragments,
    ECStripingDriver.encode
      {| ECStripingDriver.k := 3; ECStripingDriver.m := 0 |}
      (b "hello world") = Ok fragments /\
    fragments !! 0%nat = Some (b "hell") /\
    fragments !! 1%nat = Some [] /\
    fragments !! 2%nat = Some [].
Proof.
  destruct (encode_shape
              {| ECStripingDriver.k := 3; ECStripingDriver.m := 0 |}
              (b "hello world"))
    as (fragments & Henc & _ & H0 & Hmid & Hlast); [cbn; lia|].
  exists fragments. split; [exact Henc|].
  split; [exact H0|]. split; [|exact Hlast].
  apply Hmid; cbn; lia.
Defined.

(** [encode] into one fragment. *)
Lemma encode_single_fragment_witness :
  ECStripingDriver.encode
    {| ECStripingDriver.k := 1; ECStripingDriver.m := 0 |} (b "hello")
  = Ok [b "h"] /\
  ECStripingDriver.decode
    {| ECStripingDriver.k := 1; ECStripingDriver.m := 0 |} [b "h"]
  = Ok (b "h").
Proof.
  exact (encode_single_fragment
           {| ECStripingDriver.k := 1; ECStripingDriver.m := 0 |}
           (b "hello") eq_refl).
Defined.


(** Two bytes into two fragments: one byte is lost. *)
Lemma encode_loses_bytes_witness :
  exists fragments,
    ECStripingDriver.encode
      {| ECStripingDriver.k := 2; ECStripingDriver.m := 0 |} (b "ab")
    = Ok fragments /\
    1 <= total_len fragments < 2.
Proof.
  apply (encode_loses_bytes
           {| ECStripingDriver.k := 2; ECStripingDriver.m := 0 |} (b "ab"));
    by vm_compute.
Defined.

(** The round trip of one byte through three fragments. *)
Lemma striping_roundtrip_iff_witness :
  exists fragments,
    ECStripingDriver.encode
      {| ECStripingDriver.k := 3; ECStripingDriver.m := 0 |} (b "h")
    = Ok fragments /\
    ECStripingDriver.decode
      {| ECStripingDriver.k := 3; ECStripingDriver.m := 0 |} fragments
    = Ok (b "h").
Proof.
  destruct (striping_roundtrip_iff
              {| ECStripingDriver.k := 3; ECStripingDriver.m := 0 |} (b "h"))
    as (fragments & out & Henc & Hdec & Hiff); [cbn; lia|].
  exists fragments. split; [exact Henc|].
  rewrite Hdec. f_equal. apply Hiff. by vm_compute.
Defined.

(** The round trip of ten bytes through three fragments. *)
Lemma striping_roundtrip_sublist_witness :
  exists fragments out,
    ECStripingDriver.encode
      {| ECStripingDriver.k := 3; ECStripingDriver.m := 0 |} (b "0123456789")
    = Ok fragments /\
    ECStripingDriver.decode
      {| ECStripingDriver.k := 3; ECStripingDriver.m := 0 |} fragments
    = Ok out /\
    out `sublist_of` b "0123456789".
Proof.
  apply (striping_roundtrip_sublist
           {| ECStripingDriver.k := 3; ECStripingDriver.m := 0 |}
           (b "0123456789")). cbn. lia.
Defined.

(** [decode] of two payloads with [k = 2]. *)
Lemma striping_decode_iff_witness :
  ECStripingDriver.decode
    {| ECStripingDriver.k := 2; ECStripingDriver.m := 0 |} [b "ab"; b "c"]
  = Ok (b "abc").
Proof.
  apply (proj2 (striping_decode_iff
                  {| ECStripingDriver.k := 2; ECStripingDriver.m := 0 |}
                  [b "ab"; b "c"] (b "abc"))).
  split; reflexivity.
Defined.

(** [reconstruct] and then [decode] of two payloads with [k = 2]. *)
Lemma striping_reconstruct_decode_witness :
  ECStripingDriver.decode
    {| ECStripingDriver.k := 2; ECStripingDriver.m := 0 |} [b "ab"; b "c"]
  = Ok (b "abc").
Proof.
  apply (proj2 (striping_reconstruct_decode
                  {| ECStripingDriver.k := 2; ECStripingDriver.m := 0 |}
                  [b "ab"; b "c"] [1]) [b "ab"; b "c"]).
  reflexivity.
Defined.

(** The construction for [rs_cauchy_orig] over the stub engine. *)
Lemma init_outcome_witness :
  init (stub_engine [] (inr None) true) 4 2 "rs_cauchy_orig" (fresh_world [])
  = (Ok {| k := 4; m := 2; type := "rs_cauchy_orig"; w := 4; hd := Some 3;
           handle := 7 |},
     {| eng := 1%nat; calls := [c_init 4 2 4 "rs_cauchy_orig"];
        store := [] |}).
Proof.
  apply (proj1 (init_outcome (stub_engine [] (inr None) true)
                  4 2 "rs_cauchy_orig" (fresh_world []))).
  split; [reflexivity|]. exists 1%nat. repeat split.
Defined.

(** A [decode] that goes through the repair path and returns [None]. *)
Lemma decode_repair_outcome_witness :
  fst (decode (stub_engine [b "d0"] (inr None) true) stub_driver [b "p0"]
         (fresh_world []))
  = Ok None.
Proof.
  rewrite (decode_repair_outcome (stub_engine [b "d0"] (inr None) true)
             stub_driver [b "p0"] (fresh_world [])
             1%nat (b "d0") [] [b "p0"] [] 2%nat [b "d0"; b "p0"] 3%nat
             (inr None) 4%nat); reflexivity.
Defined.

(** A [reconstruct] whose engine call fails for the first target. *)
Lemma reconstruct_any_run_witness :
  exists wd',
    reconstruct (stub_engine [b "d0"] (inr None) false) stub_driver
      [b "p0"] 0%nat (fresh_world [[3; 0; 2]])
    = (Raise (EngineFault "reconstruct failed"), wd') /\
    store wd' = [[0; 2; 3]] /\
    reconstructed_indexes (calls wd') `prefix_of` [0; 2; 3].
Proof.
  destruct (reconstruct_any_run (stub_engine [b "d0"] (inr None) false)
              stub_driver [b "p0"] 0%nat [3; 0; 2]
              (fresh_world [[3; 0; 2]]) eq_refl)
    as (res & wd' & new & Hrun & Hst & Hc & _ & Hp).
  exists wd'. split; [rewrite Hrun; f_equal|].
  - change res with (fst (res, wd')). rewrite <- Hrun. reflexivity.
  - split; [exact Hst|]. rewrite Hc. exact Hp.
Defined.

(** A [reconstruct] that fails on the partition for its first target,
    after one call. *)
Lemma reconstruct_outcomes_witness :
  exists wd',
    reconstruct (stub_engine [] (inr None) true) stub_driver [b "p0"]
      0%nat (fresh_world [[4; 1]]) = (Raise IndexError, wd') /\
    exists i, (i < 2)%nat /\ length (calls wd') = (2 * i + 1)%nat.
Proof.
  destruct (reconstruct_outcomes (stub_engine [] (inr None) true)
              stub_driver [b "p0"] 0%nat [4; 1] (fresh_world [[4; 1]])
              eq_refl)
    as (res & wd' & new & Hrun & Hc & Hres).
  assert (res = Raise IndexError) as ->.
  { change res with (fst (res, wd')). rewrite <- Hrun. reflexivity. }
  exists wd'. split; [exact Hrun|]. rewrite Hc. exact Hres.
Defined.

(** The calls of a [reconstruct] for two targets, over an engine whose
    partition is always the same. *)
Lemma reconstruct_partitions_caller_payloads_witness :
  exists res wd',
    reconstruct (stub_engine [b "d0"] (inr None) true) stub_driver
      [b "p0"] 0%nat (fresh_world [[4; 1]]) = (res, wd') /\
    Forall (fun c =>
              c = c_get_fragment_partition 7 [b "p0"] \/
              exists index first,
                head [b "d0"] = Some first /\
                c = c_reconstruct 7 [b "d0"] [b "p0"] [] index (len first))
      (calls wd').
Proof.
  destruct (reconstruct_partitions_caller_payloads
              (stub_engine [b "d0"] (inr None) true) stub_driver [b "p0"]
              0%nat [4; 1] (fresh_world [[4; 1]]) eq_refl)
    as (res & wd' & new & Hrun & Hc & _ & Hall).
  exists res, wd'. split; [exact Hrun|]. rewrite Hc.
  apply (Hall [b "d0"] [b "p0"] []). intros s. reflexivity.
Defined.

(** A [reconstruct] with no target. *)
Lemma reconstruct_no_targets_witness :
  reconstruct (stub_engine [] (inr None) false) stub_driver [b "p0"]
    1%nat (fresh_world [[4; 1]; []])
  = (Ok [], fresh_world [[4; 1]; []]).
Proof.
  exact (reconstruct_no_targets (stub_engine [] (inr None) false)
           stub_driver [b "p0"] 1%nat (fresh_world [[4; 1]; []]) eq_refl).
Defined.

(** The targets [[3; 0; 2]] and [[0; 2; 3]]. *)
Lemma reconstruct_order_insensitive_witness :
  reconstruct (stub_engine [b "d0"] (inr None) true) stub_driver [b "p0"]
    0%nat (fresh_world [[0; 2; 3]])
  = reconstruct (stub_engine [b "d0"] (inr None) true) stub_driver [b "p0"]
      0%nat (fresh_world [[3; 0; 2]]).
Proof.
  apply (reconstruct_order_insensitive
           (stub_engine [b "d0"] (inr None) true) stub_driver [b "p0"]
           0%nat [3; 0; 2] [0; 2; 3] (fresh_world [[3; 0; 2]])).
  - symmetry. exact (sort_permutation [3; 0; 2]).
  - reflexivity.
Defined.

End MoreRuns.
